(** * video_record: the local video store of [app.py] and its HTTP handlers

    A shallow embedding of [src/app.py]: the [LocalVideoStorage] class
    ([create_session_folder], [save_video], [get_session_info]) and the Flask
    handlers [upload_video], [session_info] and [list_sessions], over an
    explicit model of what they touch: [pathlib] pure paths, a POSIX file
    tree, the wall clock and Python exceptions.

    Conventions.
    - A Python [str] is a Rocq [string] holding its UTF-8 encoding; [bytes]
      are [list Byte.byte].
    - The file tree is a finite map from canonical absolute paths (lists of
      component names below [/]) to nodes.  Permissions, quotas, name-length
      limits, symbolic links and inode timestamps are outside the model.
    - [datetime.now()] reads the next value of a clock stream kept in the
      world state.
    - Logging calls have no effect on results and are left out. *)

From Stdlib Require Import ZArith Ascii Decimal DecimalString Sorted Permutation.
From stdpp Require Import gmap strings list fin_maps.

Local Open Scope Z_scope.
Local Open Scope nat_scope.

(** ** Strings *)

Module Str.

Definition slash : ascii := "/"%char.
Definition dquote : ascii := "034"%char.
Definition backslash : ascii := "\"%char.

(** [s.split('/')]: the fields between slashes; never the empty list. *)
Fixpoint split (s : string) : list string :=
  match s with
  | EmptyString => [EmptyString]
  | String c r =>
      if Ascii.eqb c slash then EmptyString :: split r
      else match split r with
           | h :: t => String c h :: t
           | [] => [String c EmptyString]
           end
  end.

(** [sep.join(l)] for the separator ["/"]. *)
Fixpoint join (l : list string) : string :=
  match l with
  | [] => ""
  | [x] => x
  | x :: r => x +:+ "/" +:+ join r
  end.

(** [s.endswith(suf)]: some tail of [s] is [suf]. *)
Fixpoint ends_with (suf s : string) : bool :=
  String.eqb s suf ||
  match s with
  | EmptyString => false
  | String _ r => ends_with suf r
  end.

Fixpoint has_char (c : ascii) (s : string) : bool :=
  match s with
  | EmptyString => false
  | String d r => Ascii.eqb d c || has_char c r
  end.

Fixpoint repeat (c : ascii) (n : nat) : string :=
  match n with
  | O => EmptyString
  | S k => String c (repeat c k)
  end.

(** [str(n)] for a non-negative [int]. *)
Definition of_nat (n : nat) : string := NilEmpty.string_of_uint (Nat.to_uint n).

(** [str(z)] for an [int]. *)
Definition of_Z (z : Z) : string := NilZero.string_of_int (Z.to_int z).

(** ['%0<w>d' % n]: decimal, left-padded with zeros to at least [w] digits. *)
Definition zpad (w n : nat) : string :=
  let s := of_nat n in repeat "0"%char (w - String.length s) +:+ s.

Fixpoint all (f : ascii -> bool) (s : string) : bool :=
  match s with
  | EmptyString => true
  | String c r => f c && all f r
  end.

(** Python's ordering of [str] values, [a <= b]: lexicographic by code
    point, which on UTF-8 text is the lexicographic order of the bytes. *)
Definition leb (a b : string) : bool := String.leb a b.

End Str.

(** ** Wall clock values: [datetime] *)

Record datetime := mk_datetime {
  year : nat; month : nat; day : nat;
  hour : nat; minute : nat; second : nat; microsecond : nat
}.

(** [dt.strftime('%Y-%m-%d')] (glibc: [%Y] is the year without padding,
    [%m] and [%d] are two digits). *)
Definition strftime_Ymd (dt : datetime) : string :=
  Str.of_nat (year dt) +:+ "-" +:+ Str.zpad 2 (month dt) +:+ "-" +:+ Str.zpad 2 (day dt).

(** [dt.strftime('%H-%M-%S')]. *)
Definition strftime_HMS (dt : datetime) : string :=
  Str.zpad 2 (hour dt) +:+ "-" +:+ Str.zpad 2 (minute dt) +:+ "-" +:+ Str.zpad 2 (second dt).

(** [dt.isoformat()]: [YYYY-MM-DDTHH:MM:SS], followed by [.ffffff] unless the
    microsecond field is zero. *)
Definition isoformat (dt : datetime) : string :=
  Str.zpad 4 (year dt) +:+ "-" +:+ Str.zpad 2 (month dt) +:+ "-" +:+ Str.zpad 2 (day dt)
  +:+ "T" +:+ Str.zpad 2 (hour dt) +:+ ":" +:+ Str.zpad 2 (minute dt)
  +:+ ":" +:+ Str.zpad 2 (second dt)
  +:+ (if Nat.eqb (microsecond dt) 0 then "" else "." +:+ Str.zpad 6 (microsecond dt)).

(** ** [pathlib] pure paths (POSIX flavour) *)

(** A parsed path: its root (empty for a relative path, ["/"], or ["//"] for
    exactly two leading slashes) and its components. *)
Record ppath := mk_ppath { proot : string; parts : list string }.

Global Instance ppath_eq_dec : EqDecision ppath.
Proof. solve_decision. Defined.

Module PurePath.

(** [splitroot]: the root of a path text and what follows it. *)
Definition splitroot (s : string) : string * string :=
  match s with
  | String c1 r1 =>
      if Ascii.eqb c1 Str.slash then
        match r1 with
        | String c2 r2 =>
            if Ascii.eqb c2 Str.slash then
              match r2 with
              | String c3 _ =>
                  if Ascii.eqb c3 Str.slash then ("/", r2) else ("//", r2)
              | EmptyString => ("//", r2)
              end
            else ("/", r1)
        | EmptyString => ("/", r1)
        end
      else ("", s)
  | EmptyString => ("", s)
  end.

Definition keep_part (x : string) : bool :=
  negb (String.eqb x "") && negb (String.eqb x ".").

(** [PurePosixPath(s)]: empty and ["."] components are dropped, [".."] is
    kept. *)
Definition parse (s : string) : ppath :=
  let '(r, rel) := splitroot s in
  mk_ppath r (List.filter keep_part (Str.split rel)).

(** [p / s]: an anchored right operand replaces the left one. *)
Definition joinpath (p : ppath) (s : string) : ppath :=
  let q := parse s in
  if String.eqb (proot q) "" then mk_ppath (proot p) (parts p ++ parts q)
  else q.

(** [p._make_child_relpath(name)], used by [iterdir] and [glob]: the name
    is appended as it is. *)
Definition child (p : ppath) (name : string) : ppath :=
  mk_ppath (proot p) (parts p ++ [name]).

(** [p.parent]: a path without components is its own parent. *)
Definition parent (p : ppath) : ppath :=
  mk_ppath (proot p) (removelast (parts p)).

(** [p.name]: the final component, empty if there is none. *)
Definition name (p : ppath) : string := List.last (parts p) "".

(** [str(p)]. *)
Definition to_str (p : ppath) : string :=
  let s := proot p +:+ Str.join (parts p) in
  if String.eqb s "" then "." else s.

Fixpoint strip_prefix (pre l : list string) : option (list string) :=
  match pre, l with
  | [], _ => Some l
  | x :: pre', y :: l' => if String.eqb x y then strip_prefix pre' l' else None
  | _ :: _, [] => None
  end.

(** [p.relative_to(base)]: purely lexical; [None] where Python raises
    [ValueError]. *)
Definition relative_to (p base : ppath) : option ppath :=
  if String.eqb (proot p) (proot base) then
    match strip_prefix (parts base) (parts p) with
    | Some rest => Some (mk_ppath "" rest)
    | None => None
    end
  else None.

End PurePath.

Notation "p </> s" := (PurePath.joinpath p s) (at level 40, left associativity).

(** ** Python values and exceptions *)

(** A question number reaches [save_video] as an [int] or as a [str] (a form
    field). *)
Inductive pyval :=
| PyInt (z : Z)
| PyStr (s : string).

Inductive exn :=
| FileNotFoundError (p : ppath)
| NotADirectoryError (p : ppath)
| IsADirectoryError (p : ppath)
| FileExistsError (p : ppath)
| ValueError_int (v : pyval)               (* int(): invalid literal *)
| ValueError_relative_to (p base : ppath). (* relative_to(): not a subpath *)

(** Text built at run time.  [str(e)] embeds [repr] of the offending value;
    it is kept as [StrExn e] and not rendered. *)
Inductive message :=
| Text (s : string)
| StrExn (e : exn)
| Prefixed (prefix : string) (m : message).

Module Py.

(** [f'{v}']. *)
Definition format (v : pyval) : string :=
  match v with
  | PyInt z => Str.of_Z z
  | PyStr s => s
  end.

(** The characters [int()] skips around a literal. *)
Definition is_space (c : ascii) : bool :=
  let n := nat_of_ascii c in
  ((9 <=? n) && (n <=? 13)) || ((28 <=? n) && (n <=? 32)).

Definition digit_val (c : ascii) : option Z :=
  let n := nat_of_ascii c in
  if (48 <=? n) && (n <=? 57) then Some (Z.of_nat (n - 48)) else None.

Fixpoint lstrip (s : string) : string :=
  match s with
  | String c r => if is_space c then lstrip r else s
  | EmptyString => EmptyString
  end.

Fixpoint all_space (s : string) : bool :=
  match s with
  | String c r => is_space c && all_space r
  | EmptyString => true
  end.

(** The rest of a decimal literal after a digit: digits, single
    underscores between digits, then only white space. *)
Fixpoint int_digits (s : string) (acc : Z) : option Z :=
  match s with
  | EmptyString => Some acc
  | String c r =>
      match digit_val c with
      | Some d => int_digits r (10 * acc + d)%Z
      | None =>
          if Ascii.eqb c "_"%char then
            match r with
            | String c2 r2 =>
                match digit_val c2 with
                | Some d => int_digits r2 (10 * acc + d)%Z
                | None => None
                end
            | EmptyString => None
            end
          else if is_space c && all_space r then Some acc
          else None
      end
  end.

(** [int(s)] for a [str], base 10, on ASCII text (non-ASCII decimal digits
    and spaces, which Python also accepts, are not recognised here). *)
Definition int_of_str (s : string) : option Z :=
  let s1 := lstrip s in
  let '(neg, s2) :=
    match s1 with
    | String c r =>
        if Ascii.eqb c "-"%char then (true, r)
        else if Ascii.eqb c "+"%char then (false, r)
        else (false, s1)
    | EmptyString => (false, s1)
    end in
  match s2 with
  | String c r =>
      match digit_val c with
      | Some d =>
          match int_digits r d with
          | Some v => Some (if neg then (- v)%Z else v)
          | None => None
          end
      | None => None
      end
  | EmptyString => None
  end.

(** [int(v)]. *)
Definition int (v : pyval) : option Z :=
  match v with
  | PyInt z => Some z
  | PyStr s => int_of_str s
  end.

End Py.

(** ** JSON text as [json.dump(..., ensure_ascii=False, indent=2)] writes it *)

Module Json.

Inductive value :=
| JStr (s : string)
| JInt (z : Z).

Definition newline : string := String "010"%char EmptyString.
Definition quote : string := String Str.dquote EmptyString.

Definition hex_digit (n : nat) : ascii :=
  if n <? 10 then ascii_of_nat (48 + n) else ascii_of_nat (87 + n).

(** One character of a string literal: the quote, the backslash and the
    control characters below 0x20 are escaped, everything else is copied. *)
Definition escape_char (c : ascii) : string :=
  let n := nat_of_ascii c in
  if Ascii.eqb c Str.dquote then String Str.backslash quote
  else if Ascii.eqb c Str.backslash then String Str.backslash (String Str.backslash EmptyString)
  else if n =? 8 then String Str.backslash "b"
  else if n =? 12 then String Str.backslash "f"
  else if n =? 10 then String Str.backslash "n"
  else if n =? 13 then String Str.backslash "r"
  else if n =? 9 then String Str.backslash "t"
  else if n <? 32 then
    String Str.backslash
      ("u00" +:+ String (hex_digit (n / 16)) (String (hex_digit (n mod 16)) EmptyString))
  else String c EmptyString.

Fixpoint escape (s : string) : string :=
  match s with
  | EmptyString => EmptyString
  | String c r => escape_char c +:+ escape r
  end.

Definition dumps_value (v : value) : string :=
  match v with
  | JStr s => quote +:+ escape s +:+ quote
  | JInt z => Str.of_Z z
  end.

Definition dumps_item (kv : string * value) : string :=
  "  " +:+ quote +:+ escape (fst kv) +:+ quote +:+ ": " +:+ dumps_value (snd kv).

Fixpoint dumps_items (l : list (string * value)) : string :=
  match l with
  | [] => EmptyString
  | [kv] => dumps_item kv
  | kv :: r => dumps_item kv +:+ "," +:+ newline +:+ dumps_items r
  end.

(** A flat object, keys in insertion order. *)
Definition dumps (l : list (string * value)) : string :=
  match l with
  | [] => "{}"
  | _ => "{" +:+ newline +:+ dumps_items l +:+ newline +:+ "}"
  end.

End Json.

(** ** The file tree and the world *)

Inductive node :=
| File (data : list Byte.byte)
| Dir.

Global Instance byte_eq_dec : EqDecision Byte.byte := Stdlib.Strings.Byte.byte_eq_dec.

Global Instance node_eq_dec : EqDecision node.
Proof. solve_decision. Defined.

Record world := mk_world {
  tree : gmap (list string) node;  (* canonical absolute path -> node *)
  cwd : list string;               (* working directory of the process *)
  clock : nat -> datetime;         (* successive readings of the wall clock *)
  ticks : nat                      (* readings taken so far *)
}.

Definition with_tree (w : world) (t : gmap (list string) node) : world :=
  mk_world t (cwd w) (clock w) (ticks w).

Inductive errno := ENOENT | ENOTDIR.

Module Posix.

(** The node at a canonical path; the root directory always exists. *)
Definition node_at (t : gmap (list string) node) (k : list string) : option node :=
  match k with
  | [] => Some Dir
  | _ => t !! k
  end.

Definition is_dir_at (t : gmap (list string) node) (k : list string) : bool :=
  match node_at t k with
  | Some Dir => true
  | _ => false
  end.

(** Path resolution from the directory [cur]: every component is looked up
    in a directory; [".."] steps to the parent, [""] and ["."] stay.  The
    final component itself need not exist. *)
Fixpoint walk (t : gmap (list string) node) (cur comps : list string)
  : errno + list string :=
  match comps with
  | [] => inr cur
  | c :: rest =>
      match node_at t cur with
      | Some Dir =>
          if String.eqb c ".." then walk t (removelast cur) rest
          else if String.eqb c "." || String.eqb c "" then walk t cur rest
          else walk t (cur ++ [c]) rest
      | Some (File _) => inl ENOTDIR
      | None => inl ENOENT
      end
  end.

Definition start (w : world) (p : ppath) : list string :=
  if String.eqb (proot p) "" then cwd w else [].

Definition resolve (w : world) (p : ppath) : errno + list string :=
  match node_at (tree w) (start w p) with
  | Some Dir => walk (tree w) (start w p) (parts p)
  | _ => inl ENOENT
  end.

Definition oserror (e : errno) (p : ppath) : exn :=
  match e with
  | ENOENT => FileNotFoundError p
  | ENOTDIR => NotADirectoryError p
  end.

(** The name of [k'] if it is an entry of the directory [k]. *)
Definition entry_name (k k' : list string) : option string :=
  match PurePath.strip_prefix k k' with
  | Some [name] => Some name
  | _ => None
  end.

(** The entries of the directory at [k], in enumeration order. *)
Definition entries (t : gmap (list string) node) (k : list string) : list string :=
  omap (fun kn => entry_name k (fst kn)) (map_to_list t).

(** [st_size] of a directory (file-system dependent; 4096 as on ext4). *)
Definition dir_st_size : nat := 4096.

(** Does [p] name anything; does it name a directory.  Lookup errors read
    as [false], as in [Path.exists] and [Path.is_dir]. *)
Definition path_exists (w : world) (p : ppath) : bool :=
  match resolve w p with
  | inr k => match node_at (tree w) k with Some _ => true | None => false end
  | inl _ => false
  end.

Definition path_is_dir (w : world) (p : ppath) : bool :=
  match resolve w p with
  | inr k => is_dir_at (tree w) k
  | inl _ => false
  end.

(** The contents of the regular file that [p] names, if it names one. *)
Definition read_file (w : world) (p : ppath) : option (list Byte.byte) :=
  match resolve w p with
  | inr k => match node_at (tree w) k with Some (File d) => Some d | _ => None end
  | inl _ => None
  end.

End Posix.

(** ** A state and exception monad for the program's effects *)

Definition M (A : Type) : Type := world -> (exn + A) * world.

Definition ret {A} (a : A) : M A := fun w => (inr a, w).

Definition raise {A} (e : exn) : M A := fun w => (inl e, w).

Definition bind {A B} (m : M A) (k : A -> M B) : M B :=
  fun w =>
    match m w with
    | (inr a, w') => k a w'
    | (inl e, w') => (inl e, w')
    end.

(** [try: m / except ...: h e]: effects made before the exception stay. *)
Definition try_except {A} (m : M A) (h : exn -> M A) : M A :=
  fun w =>
    match m w with
    | (inl e, w') => h e w'
    | (inr a, w') => (inr a, w')
    end.

Notation "x <- m ;; k" := (bind m (fun x => k))
  (at level 100, m at next level, right associativity).
Notation "m ;;; k" := (bind m (fun _ => k))
  (at level 100, right associativity).

(** [datetime.now()]: the current reading; the next call sees the next one. *)
Definition tick (w : world) : world :=
  mk_world (tree w) (cwd w) (clock w) (S (ticks w)).

Definition now : M datetime :=
  fun w => (inr (clock w (ticks w)), tick w).

(** A value that Python computes or raises [e]. *)
Definition or_raise {A} (o : option A) (e : exn) : M A :=
  match o with
  | Some a => ret a
  | None => raise e
  end.

(** ** File-system calls made through [pathlib] and [open] *)

Module Path.

(** [os.mkdir(p)]. *)
Definition os_mkdir (p : ppath) : M unit :=
  fun w =>
    match Posix.resolve w p with
    | inl en => (inl (Posix.oserror en p), w)
    | inr k =>
        match Posix.node_at (tree w) k with
        | Some _ => (inl (FileExistsError p), w)
        | None => (inr tt, with_tree w (<[k := Dir]> (tree w)))
        end
    end.

(** [p.exists()]: lookup errors read as absence. *)
Definition exists_ (p : ppath) : M bool :=
  fun w => (inr (Posix.path_exists w p), w).

(** [p.is_dir()]. *)
Definition is_dir (p : ppath) : M bool :=
  fun w => (inr (Posix.path_is_dir w p), w).

(** [p.mkdir(parents=False, exist_ok=True)]. *)
Definition mkdir_exist_ok (p : ppath) : M unit :=
  try_except (os_mkdir p)
    (fun e =>
       match e with
       | FileNotFoundError _ => raise e
       | _ => d <- is_dir p ;; if d then ret tt else raise e
       end).

(** [p.mkdir(parents=True, exist_ok=True)] for the path with root [r] and
    components [rev rparts]; a missing ancestor is created first, and a
    path without components is its own parent. *)
Fixpoint mkdir_parents_rev (r : string) (rparts : list string) : M unit :=
  let p := mk_ppath r (rev rparts) in
  try_except (os_mkdir p)
    (fun e =>
       match e with
       | FileNotFoundError _ =>
           match rparts with
           | [] => raise e
           | _ :: up => mkdir_parents_rev r up ;;; mkdir_exist_ok p
           end
       | _ => d <- is_dir p ;; if d then ret tt else raise e
       end).

Definition mkdir_parents (p : ppath) : M unit :=
  mkdir_parents_rev (proot p) (rev (parts p)).

(** [with open(p, 'wb') as f: f.write(data)]; the text mode
    [open(p, 'w', encoding='utf-8')] opens the same way.  The file is
    created or truncated, a directory is refused. *)
Definition write_bytes (p : ppath) (data : list Byte.byte) : M unit :=
  fun w =>
    match Posix.resolve w p with
    | inl en => (inl (Posix.oserror en p), w)
    | inr k =>
        match Posix.node_at (tree w) k with
        | Some Dir => (inl (IsADirectoryError p), w)
        | _ => (inr tt, with_tree w (<[k := File data]> (tree w)))
        end
    end.

(** [os.listdir(p)]. *)
Definition listdir (p : ppath) : M (list string) :=
  fun w =>
    match Posix.resolve w p with
    | inl en => (inl (Posix.oserror en p), w)
    | inr k =>
        match Posix.node_at (tree w) k with
        | Some Dir => (inr (Posix.entries (tree w) k), w)
        | Some (File _) => (inl (NotADirectoryError p), w)
        | None => (inl (FileNotFoundError p), w)
        end
    end.

(** [list(p.iterdir())]. *)
Definition iterdir (p : ppath) : M (list ppath) :=
  names <- listdir p ;;
  ret (map (PurePath.child p) names).

(** [list(p.glob('*' + suffix))]: the entries of [p] whose name ends with
    [suffix]; nothing if [p] is not a directory. *)
Definition glob_suffix (p : ppath) (suffix : string) : M (list ppath) :=
  d <- is_dir p ;;
  if d then
    names <- listdir p ;;
    ret (map (PurePath.child p) (List.filter (Str.ends_with suffix) names))
  else ret [].

(** [p.stat().st_size]. *)
Definition stat_size (p : ppath) : M nat :=
  fun w =>
    match Posix.resolve w p with
    | inl en => (inl (Posix.oserror en p), w)
    | inr k =>
        match Posix.node_at (tree w) k with
        | Some (File d) => (inr (length d), w)
        | Some Dir => (inr Posix.dir_st_size, w)
        | None => (inl (FileNotFoundError p), w)
        end
    end.

(** [p.relative_to(base)]. *)
Definition relative_to (p base : ppath) : M ppath :=
  or_raise (PurePath.relative_to p base) (ValueError_relative_to p base).

End Path.

(** [for x in l: acc = body x acc], in the monad. *)
Fixpoint for_each {A S} (l : list A) (body : A -> S -> M S) (acc : S) : M S :=
  match l with
  | [] => ret acc
  | x :: r => acc' <- body x acc ;; for_each r body acc'
  end.

(** ** [class LocalVideoStorage] *)

Record LocalVideoStorage := mk_storage { base_path : ppath }.

(** The metadata dictionary of one saved video, keys in insertion order. *)
Record metadata := mk_metadata {
  md_session_id : string;
  md_question_number : Z;
  md_question_text : string;
  md_filename : string;
  md_timestamp : string;
  md_file_path : string;
  md_file_size : nat
}.

Definition metadata_items (m : metadata) : list (string * Json.value) :=
  [ ("session_id", Json.JStr (md_session_id m));
    ("question_number", Json.JInt (md_question_number m));
    ("question_text", Json.JStr (md_question_text m));
    ("filename", Json.JStr (md_filename m));
    ("timestamp", Json.JStr (md_timestamp m));
    ("file_path", Json.JStr (md_file_path m));
    ("file_size", Json.JInt (Z.of_nat (md_file_size m))) ].

(** The bytes [json.dump(metadata, f, ensure_ascii=False, indent=2)] leaves in
    a file opened with [encoding='utf-8']. *)
Definition metadata_json (m : metadata) : list Byte.byte :=
  String.list_byte_of_string (Json.dumps (metadata_items m)).

(** What [save_video] returns: [{'success': True, 'file_path': ...,
    'absolute_path': ..., 'metadata': ...}] or
    [{'success': False, 'error': ...}]. *)
Inductive save_result :=
| SaveOk (file_path absolute_path : string) (md : metadata)
| SaveFailed (error : message).

Definition save_success (r : save_result) : bool :=
  match r with
  | SaveOk _ _ _ => true
  | SaveFailed _ => false
  end.

(** One element of [videos_info]; the ['created'] entry, a floating-point
    inode time, is not modelled. *)
Record file_info := mk_file_info { fi_filename : string; fi_size : nat }.

(** What [get_session_info] returns. *)
Inductive session_result :=
| SessionOk (session_id : string) (total_questions : nat)
            (session_folder : string) (videos : list file_info)
| SessionFailed (error : message).

Definition session_success (r : session_result) : bool :=
  match r with
  | SessionOk _ _ _ _ => true
  | SessionFailed _ => false
  end.

Definition video_name (question_number : pyval) (timestamp : string) : string :=
  "question_" +:+ Py.format question_number +:+ "_" +:+ timestamp +:+ ".webm".

Definition metadata_name (question_number : pyval) : string :=
  "question_" +:+ Py.format question_number +:+ "_metadata.json".

Definition session_not_found : string := "Сессия не найдена".

(** [LocalVideoStorage.__init__]: [Path(base_path).mkdir(exist_ok=True)]
    creates the root if it is missing; its parent is not created ([parents]
    keeps its default, [False]). *)
Definition LocalVideoStorage_init (base_path : ppath) : M LocalVideoStorage :=
  Path.mkdir_exist_ok base_path ;;;
  ret (mk_storage base_path).

Definition create_session_folder (self : LocalVideoStorage) (session_id : string)
  : M ppath :=
  d <- now ;;
  let current_date := strftime_Ymd d in
  let session_folder := base_path self </> current_date </> session_id in
  Path.mkdir_parents session_folder ;;;
  ret session_folder.

(** The body of the [try] block of [save_video]. *)
Definition save_video_try (self : LocalVideoStorage) (video_data : list Byte.byte)
    (session_id : string) (question_number : pyval) (question_text : string)
  : M save_result :=
  session_folder <- create_session_folder self session_id ;;
  t <- now ;;
  let timestamp := strftime_HMS t in
  let filename := video_name question_number timestamp in
  let file_path := session_folder </> filename in
  Path.write_bytes file_path video_data ;;;
  n <- or_raise (Py.int question_number) (ValueError_int question_number) ;;
  t' <- now ;;
  rel <- Path.relative_to file_path (base_path self) ;;
  let metadata :=
    mk_metadata session_id n question_text filename (isoformat t')
                (PurePath.to_str rel) (length video_data) in
  let metadata_filename := metadata_name question_number in
  let metadata_path := session_folder </> metadata_filename in
  Path.write_bytes metadata_path (metadata_json metadata) ;;;
  rel' <- Path.relative_to file_path (base_path self) ;;
  ret (SaveOk (PurePath.to_str rel') (PurePath.to_str file_path) metadata).

Definition save_video (self : LocalVideoStorage) (video_data : list Byte.byte)
    (session_id : string) (question_number : pyval) (question_text : string)
  : M save_result :=
  try_except
    (save_video_try self video_data session_id question_number question_text)
    (fun e => ret (SaveFailed (StrExn e))).

(** The loop that fills [videos_info]. *)
Definition videos_info (video_files : list ppath) : M (list file_info) :=
  for_each video_files
    (fun video_file acc =>
       size <- Path.stat_size video_file ;;
       ret (acc ++ [mk_file_info (PurePath.name video_file) size]))
    [].

(** The body of the [try] block of [get_session_info]. *)
Definition get_session_info_try (self : LocalVideoStorage) (session_id : string)
  : M session_result :=
  d <- now ;;
  let current_date := strftime_Ymd d in
  let session_folder := base_path self </> current_date </> session_id in
  found <- Path.exists_ session_folder ;;
  if negb found then ret (SessionFailed (Text session_not_found))
  else
    video_files <- Path.glob_suffix session_folder ".webm" ;;
    metadata_files <- Path.glob_suffix session_folder "_metadata.json" ;;
    videos <- videos_info video_files ;;
    rel <- Path.relative_to session_folder (base_path self) ;;
    ret (SessionOk session_id (length video_files) (PurePath.to_str rel) videos).

Definition get_session_info (self : LocalVideoStorage) (session_id : string)
  : M session_result :=
  try_except
    (get_session_info_try self session_id)
    (fun e => ret (SessionFailed (StrExn e))).

(** ** The HTTP handlers *)

(** An uploaded file of a multipart request. *)
Record FileStorage := mk_file { filename : string; stream : list Byte.byte }.

Record request := mk_request {
  files : gmap string FileStorage;
  form : gmap string string
}.

(** One element of the list [list_sessions] returns. *)
Record session_entry := mk_entry {
  se_session_id : string;
  se_date : string;
  se_video_count : nat;
  se_path : string
}.

(** The JSON bodies the handlers produce. *)
Inductive body :=
| ErrorBody (error : message)
| UploadedBody (msg file_path : string) (file_size : nat)
| SessionBody (session_id : string) (total_questions : nat)
              (session_folder : string) (videos : list file_info)
| SessionsBody (sessions : list session_entry).

Record response := mk_response { status : nat; payload : body }.

(** [sorted(sessions, key=lambda x: x['date'], reverse=True)]: stable, so
    entries with equal dates keep their order. *)
Fixpoint insert_by_date (x : session_entry) (l : list session_entry)
  : list session_entry :=
  match l with
  | [] => [x]
  | y :: r =>
      if Str.leb (se_date y) (se_date x) then x :: y :: r
      else y :: insert_by_date x r
  end.

Definition sorted_by_date_desc (l : list session_entry) : list session_entry :=
  foldr insert_by_date [] l.

Section Handlers.

(** [BASE_DIR = Path(__file__).parent]. *)
Variable BASE_DIR : ppath.

Definition UPLOAD_FOLDER : string := "video_interviews".
Definition VIDEOS_DIR : ppath := BASE_DIR </> UPLOAD_FOLDER.
Definition storage : LocalVideoStorage := mk_storage VIDEOS_DIR.

(** The answer of [upload_video] once [save_video] has returned:
    [result['success']] selects the 200 body or the 500 error. *)
Definition upload_response (result : save_result) : response :=
  match result with
  | SaveOk file_path _ md =>
      mk_response 200
        (UploadedBody "Видео успешно сохранено локально"
                      file_path (md_file_size md))
  | SaveFailed error =>
      mk_response 500 (ErrorBody (Prefixed "Ошибка сохранения: " error))
  end.

Definition upload_video (req : request) : M response :=
  try_except
    (match files req !! "video" with
     | None => ret (mk_response 400 (ErrorBody (Text "Видео файл не найден")))
     | Some video_file =>
         let session_id := default "unknown" (form req !! "session_id") in
         let question_number := default "1" (form req !! "question_number") in
         let question_text := default "" (form req !! "question_text") in
         if String.eqb (filename video_file) "" then
           ret (mk_response 400 (ErrorBody (Text "Файл не выбран")))
         else
           let video_data := stream video_file in
           if length video_data =? 0 then
             ret (mk_response 400 (ErrorBody (Text "Файл пустой")))
           else
             result <- save_video storage video_data session_id
                         (PyStr question_number) question_text ;;
             ret (upload_response result)
     end)
    (fun e => ret (mk_response 500 (ErrorBody (Prefixed "Ошибка сервера: " (StrExn e))))).

Definition session_info (session_id : string) : M response :=
  try_except
    (result <- get_session_info storage session_id ;;
     match result with
     | SessionOk sid total folder videos =>
         ret (mk_response 200 (SessionBody sid total folder videos))
     | SessionFailed error => ret (mk_response 404 (ErrorBody error))
     end)
    (fun e => ret (mk_response 500 (ErrorBody (StrExn e)))).

(** The two nested loops of [list_sessions]. *)
Definition scan_sessions : M (list session_entry) :=
  found <- Path.exists_ VIDEOS_DIR ;;
  if found then
    date_folders <- Path.iterdir VIDEOS_DIR ;;
    for_each date_folders
      (fun date_folder sessions =>
         d <- Path.is_dir date_folder ;;
         if d then
           session_folders <- Path.iterdir date_folder ;;
           for_each session_folders
             (fun session_folder sessions =>
                d' <- Path.is_dir session_folder ;;
                if d' then
                  videos <- Path.glob_suffix session_folder ".webm" ;;
                  let video_count := length videos in
                  rel <- Path.relative_to session_folder VIDEOS_DIR ;;
                  ret (sessions ++
                       [mk_entry (PurePath.name session_folder)
                                 (PurePath.name date_folder)
                                 video_count (PurePath.to_str rel)])
                else ret sessions)
             sessions
         else ret sessions)
      []
  else ret [].

Definition list_sessions : M response :=
  try_except
    (sessions <- scan_sessions ;;
     ret (mk_response 200 (SessionsBody (sorted_by_date_desc sessions))))
    (fun e => ret (mk_response 500 (ErrorBody (StrExn e)))).

End Handlers.

(** What loading the module does before any request is served:
    [VIDEOS_DIR.mkdir(exist_ok=True)], then
    [storage = LocalVideoStorage(VIDEOS_DIR)]. *)
Definition load_module (BASE_DIR : ppath) : M LocalVideoStorage :=
  Path.mkdir_exist_ok (VIDEOS_DIR BASE_DIR) ;;;
  LocalVideoStorage_init (VIDEOS_DIR BASE_DIR).

(** * Properties *)

(** ** Concrete data used by the examples *)

Module Sample.

Definition noon : datetime := mk_datetime 2024 6 1 14 5 10 0.
Definition later : datetime := mk_datetime 2024 6 1 14 5 11 0.

(** An empty disk, a clock that stands at 2024-06-01 14:05:10. *)
Definition empty_world : world := mk_world ∅ [] (fun _ => noon) 0.

(** The same disk with a clock that moves on by a second after the first
    five readings. *)
Definition moving_world : world :=
  mk_world ∅ [] (fun n => if n <? 3 then noon else later) 0.

Definition base_dir : ppath := PurePath.parse "/srv".
Definition root : ppath := VIDEOS_DIR base_dir.
Definition store : LocalVideoStorage := storage base_dir.
Definition two_bytes : list Byte.byte := [Byte.x00; Byte.x01].
Definition three_bytes : list Byte.byte := [Byte.x07; Byte.x08; Byte.x09].

Definition session_key : list string :=
  ["srv"; "video_interviews"; "2024-06-01"; "sess-A"].

(** The save of the specification's example and the record it returns. *)
Definition tell : string := "Tell me about yourself".
Definition video_rel : string := "2024-06-01/sess-A/question_3_14-05-10.webm".
Definition video_abs : string :=
  "/srv/video_interviews/2024-06-01/sess-A/question_3_14-05-10.webm".
Definition saved : (exn + save_result) * world :=
  save_video store two_bytes "sess-A" (PyInt 3) tell empty_world.
Definition saved_metadata : metadata :=
  mk_metadata "sess-A" 3 tell "question_3_14-05-10.webm" "2024-06-01T14:05:10"
              video_rel 2.

(** Two saves of question 3 of one session, a second apart. *)
Definition video_rel_later : string := "2024-06-01/sess-A/question_3_14-05-11.webm".
Definition first_save : (exn + save_result) * world :=
  save_video store two_bytes "sess-A" (PyInt 3) "first" moving_world.
Definition second_save : (exn + save_result) * world :=
  save_video store three_bytes "sess-A" (PyInt 3) "second" (snd first_save).

(** The same two saves within one second. *)
Definition first_save_same_second : (exn + save_result) * world :=
  save_video store two_bytes "sess-A" (PyInt 3) "first" empty_world.
Definition second_save_same_second : (exn + save_result) * world :=
  save_video store three_bytes "sess-A" (PyInt 3) "second" (snd first_save_same_second).

(** The disk after a save on 2024-05-31, seen on 2024-06-01. *)
Definition eve : datetime := mk_datetime 2024 5 31 9 0 0 0.
Definition next_day_world : world :=
  mk_world
    (tree (snd (save_video store two_bytes "sess-A" (PyInt 3) "Tell me about yourself"
                  (mk_world ∅ [] (fun _ => eve) 0))))
    [] (fun _ => noon) 0.

End Sample.

(** ** The storage calls catch what their bodies raise *)

Lemma try_except_returns {A} (m : M A) (h : exn -> A) (w : world) :
  ∃ a w', try_except m (fun e => ret (h e)) w = (inr a, w')
          ∧ (∀ e w1, m w = (inl e, w1) → a = h e ∧ w' = w1)
          ∧ (∀ a1 w1, m w = (inr a1, w1) → a = a1 ∧ w' = w1).
Proof.
  unfold try_except, ret.
  destruct (m w) as [[e | a] w1]; eexists _, _; (split; [reflexivity |]);
    split; intros ? ? [= <- <-]; auto.
Qed.

Lemma save_video_returns (self : LocalVideoStorage) (video_data : list Byte.byte)
    (session_id : string) (question_number : pyval) (question_text : string)
    (w : world) :
  ∃ r w',
    save_video self video_data session_id question_number question_text w = (inr r, w').
Proof.
  unfold save_video.
  destruct (try_except_returns
              (save_video_try self video_data session_id question_number question_text)
              (fun e => SaveFailed (StrExn e)) w) as (r & w' & Hrun & _).
  eauto.
Qed.

(** C3: [save_video] and [get_session_info] return a result on every input
    and in every state of the world, never an exception; a result with
    success false carries an error text, and whatever their [try] block
    raises comes back as the failure result holding [str(e)]. *)
Theorem storage_calls_never_raise (self : LocalVideoStorage)
    (video_data : list Byte.byte) (session_id : string)
    (question_number : pyval) (question_text : string) (w : world) :
  (∃ r w',
      save_video self video_data session_id question_number question_text w = (inr r, w')
      ∧ (save_success r = false → ∃ msg, r = SaveFailed msg)
      ∧ (∀ e w1,
            save_video_try self video_data session_id question_number question_text w
              = (inl e, w1) → r = SaveFailed (StrExn e)))
  ∧ (∃ r w',
      get_session_info self session_id w = (inr r, w')
      ∧ (session_success r = false → ∃ msg, r = SessionFailed msg)
      ∧ (∀ e w1,
            get_session_info_try self session_id w = (inl e, w1) →
            r = SessionFailed (StrExn e))).
Proof.
  split.
  - unfold save_video.
    destruct (try_except_returns
                (save_video_try self video_data session_id question_number question_text)
                (fun e => SaveFailed (StrExn e)) w) as (r & w' & Hrun & Hexn & _).
    exists r, w'. split; [exact Hrun |]. split.
    + destruct r as [? ? ? | msg]; [discriminate | eauto].
    + intros e w1 He. exact (proj1 (Hexn e w1 He)).
  - unfold get_session_info.
    destruct (try_except_returns (get_session_info_try self session_id)
                (fun e => SessionFailed (StrExn e)) w) as (r & w' & Hrun & Hexn & _).
    exists r, w'. split; [exact Hrun |]. split.
    + destruct r as [? ? ? ? | msg]; [discriminate | eauto].
    + intros e w1 He. exact (proj1 (Hexn e w1 He)).
Qed.

(** ** Upload requests *)

(** C8: an upload whose [video] part has no bytes is answered with status
    400 and the world is left exactly as it was: [save_video] is not
    reached, no file or directory is created and the clock is not read. *)
Theorem upload_empty_payload_rejected (BASE_DIR : ppath) (req : request)
    (video_file : FileStorage) (w : world) :
  files req !! "video" = Some video_file →
  stream video_file = [] →
  ∃ msg, upload_video BASE_DIR req w = (inr (mk_response 400 (ErrorBody (Text msg))), w).
Proof.
  intros Hfile Hempty.
  unfold upload_video, try_except. rewrite Hfile.
  destruct (String.eqb (filename video_file) "").
  - eexists; reflexivity.
  - rewrite Hempty. eexists; reflexivity.
Qed.

Lemma upload_empty_payload_rejected_witness :
  let req := mk_request {[ "video" := mk_file "answer.webm" [] ]} ∅ in
  ∃ msg, upload_video Sample.base_dir req Sample.empty_world
         = (inr (mk_response 400 (ErrorBody (Text msg))), Sample.empty_world).
Proof.
  intros req.
  apply (upload_empty_payload_rejected Sample.base_dir req (mk_file "answer.webm" [])).
  - reflexivity.
  - reflexivity.
Defined.

(** C10: form fields that are absent are replaced by defaults and the save
    goes ahead: for a request with a named, non-empty [video] part,
    [upload_video] is [save_video] called with [session_id], [question_number]
    and [question_text] read from the form, an absent one being ["unknown"],
    ["1"] and [""] respectively, followed by the translation of its result. *)
Theorem upload_missing_fields_defaulted (BASE_DIR : ppath) (req : request)
    (video_file : FileStorage) (w : world) :
  files req !! "video" = Some video_file →
  filename video_file ≠ "" →
  stream video_file ≠ [] →
  ∃ result w',
    save_video (storage BASE_DIR) (stream video_file)
      (match form req !! "session_id" with Some s => s | None => "unknown" end)
      (PyStr (match form req !! "question_number" with Some s => s | None => "1" end))
      (match form req !! "question_text" with Some s => s | None => "" end)
      w = (inr result, w')
    ∧ upload_video BASE_DIR req w = (inr (upload_response result), w').
Proof.
  intros Hfile Hname Hdata.
  unfold upload_video, try_except, bind. rewrite Hfile.
  destruct (String.eqb_spec (filename video_file) "") as [Heq | _]; [contradiction |].
  destruct (stream video_file) as [| b data] eqn:Hstream; [contradiction |].
  cbn [length Nat.eqb].
  destruct (form req !! "session_id") as [sid |],
           (form req !! "question_number") as [qn |],
           (form req !! "question_text") as [text |]; cbn [default from_option id];
    match goal with
    | |- context [save_video ?s ?d ?i ?q ?t w] =>
        destruct (save_video_returns s d i q t w) as (r & w' & Hrun)
    end; exists r, w'; rewrite Hrun; split; reflexivity.
Qed.

Lemma upload_missing_fields_defaulted_witness :
  let req := mk_request {[ "video" := mk_file "answer.webm" Sample.two_bytes ]} ∅ in
  ∃ result w',
    save_video Sample.store Sample.two_bytes "unknown" (PyStr "1") ""
      Sample.empty_world = (inr result, w')
    ∧ upload_video Sample.base_dir req Sample.empty_world
      = (inr (upload_response result), w').
Proof.
  intros req.
  apply (upload_missing_fields_defaulted Sample.base_dir req
           (mk_file "answer.webm" Sample.two_bytes)).
  - reflexivity.
  - discriminate.
  - discriminate.
Defined.

(** ** Looking a session up *)

(** C4: [get_session_info] consults only the folder of the current date: if
    [<root>/<today>/<session_id>] names nothing, the answer is the failure
    result with the error "session not found", whatever else the tree holds
    (folders of that session under other dates included). *)
Theorem get_session_info_only_today (self : LocalVideoStorage) (session_id : string)
    (w : world) :
  Posix.path_exists w
    (base_path self </> strftime_Ymd (clock w (ticks w)) </> session_id) = false →
  get_session_info self session_id w
  = (inr (SessionFailed (Text session_not_found)), tick w).
Proof.
  intros Habsent.
  unfold get_session_info, try_except, get_session_info_try, bind, now, Path.exists_.
  change (Posix.path_exists (tick w) ?p) with (Posix.path_exists w p).
  rewrite Habsent. reflexivity.
Qed.

Lemma get_session_info_only_today_witness :
  Posix.path_is_dir Sample.next_day_world (Sample.root </> "2024-05-31" </> "sess-A") = true
  ∧ get_session_info Sample.store "sess-A" Sample.next_day_world
    = (inr (SessionFailed (Text session_not_found)), tick Sample.next_day_world).
Proof.
  split.
  - vm_compute. reflexivity.
  - apply (get_session_info_only_today Sample.store "sess-A" Sample.next_day_world).
    vm_compute. reflexivity.
Defined.

(** ** Facts about strings and names *)

Module StrFacts.

Lemma append_cons c r s : String c r +:+ s = String c (r +:+ s).
Proof. reflexivity. Qed.

Lemma length_append a b :
  String.length (a +:+ b) = String.length a + String.length b.
Proof. induction a as [| c a IH]; [reflexivity |]. rewrite append_cons. cbn. by rewrite IH. Qed.

Lemma append_inj_r s x y : x +:+ s = y +:+ s → x = y.
Proof.
  revert y. induction x as [| c x IH]; intros [| d y] Heq.
  - reflexivity.
  - apply (f_equal String.length) in Heq.
    rewrite !length_append in Heq. cbn in Heq. lia.
  - apply (f_equal String.length) in Heq.
    rewrite !length_append in Heq. cbn in Heq. lia.
  - rewrite !append_cons in Heq. injection Heq as -> Heq. f_equal. by apply IH.
Qed.

Lemma all_append f a b : Str.all f (a +:+ b) = Str.all f a && Str.all f b.
Proof.
  induction a as [| c a IH]; [reflexivity |].
  rewrite append_cons. cbn. rewrite IH. by rewrite andb_assoc.
Qed.

Lemma all_weaken (f g : ascii -> bool) s :
  (∀ c, f c = true → g c = true) → Str.all f s = true → Str.all g s = true.
Proof.
  intros Hfg. induction s as [| c s IH]; [done |]. cbn.
  intros [Hc Hs]%andb_true_iff. rewrite (Hfg c Hc). by apply IH.
Qed.

Lemma all_has_char f c s :
  f c = false → Str.all f s = true → Str.has_char c s = false.
Proof.
  intros Hc. induction s as [| d s IH]; [done |]. cbn.
  intros [Hd Hs]%andb_true_iff. rewrite (IH Hs), orb_false_r.
  destruct (Ascii.eqb_spec d c) as [-> |]; [congruence | done].
Qed.

Lemma has_char_append c a b :
  Str.has_char c (a +:+ b) = Str.has_char c a || Str.has_char c b.
Proof.
  induction a as [| d a IH]; [reflexivity |].
  rewrite append_cons. cbn. rewrite IH. by rewrite orb_assoc.
Qed.

Lemma split_no_slash s : Str.has_char Str.slash s = false → Str.split s = [s].
Proof.
  induction s as [| c s IH]; [done |]. cbn.
  intros [Hc Hs]%orb_false_iff. rewrite Hc, (IH Hs). reflexivity.
Qed.

(** Decimal digits, and the dash of dates, times and negative numbers. *)
Definition digit_or_dash (c : ascii) : bool :=
  let n := nat_of_ascii c in ((48 <=? n) && (n <=? 57)) || (n =? 45).

Lemma all_of_uint u : Str.all digit_or_dash (NilEmpty.string_of_uint u) = true.
Proof. induction u; cbn; auto. Qed.

Lemma all_of_nat n : Str.all digit_or_dash (Str.of_nat n) = true.
Proof. apply all_of_uint. Qed.

Lemma all_of_Z z : Str.all digit_or_dash (Str.of_Z z) = true.
Proof.
  unfold Str.of_Z, NilZero.string_of_int.
  destruct (Z.to_int z) as [u | u]; unfold NilZero.string_of_uint;
    destruct u; cbn; rewrite ?all_of_uint; reflexivity.
Qed.

Lemma all_repeat_zero n : Str.all digit_or_dash (Str.repeat "0"%char n) = true.
Proof. induction n; cbn; auto. Qed.

Lemma all_zpad w n : Str.all digit_or_dash (Str.zpad w n) = true.
Proof.
  unfold Str.zpad. by rewrite all_append, all_repeat_zero, all_of_nat.
Qed.

Lemma all_strftime_HMS t : Str.all digit_or_dash (strftime_HMS t) = true.
Proof.
  unfold strftime_HMS. by rewrite !all_append, !all_zpad.
Qed.

End StrFacts.

Module NameFacts.
Import StrFacts.

(** The characters a literal accepted by [int()] is made of. *)
Definition int_char (c : ascii) : bool :=
  Py.is_space c || digit_or_dash c || Ascii.eqb c "+"%char || Ascii.eqb c "_"%char.

Lemma digit_val_char c d : Py.digit_val c = Some d → int_char c = true.
Proof.
  unfold Py.digit_val, int_char, digit_or_dash.
  destruct ((48 <=? nat_of_ascii c) && (nat_of_ascii c <=? 57)); [| done].
  intros _. by rewrite orb_true_r.
Qed.

Lemma space_char c : Py.is_space c = true → int_char c = true.
Proof. unfold int_char. by intros ->. Qed.

Lemma all_space_chars s : Py.all_space s = true → Str.all int_char s = true.
Proof.
  induction s as [| c s IH]; [done |]. cbn.
  intros [Hc Hs]%andb_true_iff. by rewrite (space_char c Hc), IH.
Qed.

Lemma int_digits_chars s acc v :
  Py.int_digits s acc = Some v → Str.all int_char s = true.
Proof.
  revert acc. induction s as [| c r IH]; intros acc; [done |].
  cbn [Py.int_digits Str.all].
  destruct (Py.digit_val c) as [d |] eqn:Hd.
  - intros Hr. by rewrite (digit_val_char c d Hd), (IH _ Hr).
  - destruct (Ascii.eqb_spec c "_"%char) as [-> | Hne].
    + destruct r as [| c2 r2]; [done |].
      destruct (Py.digit_val c2) as [d |] eqn:Hd2; [| done].
      intros Hr. apply (IH acc). cbn [Py.int_digits]. by rewrite Hd2.
    + destruct (Py.is_space c) eqn:Hsp; [| done]. cbn [andb].
      destruct (Py.all_space r) eqn:Hall; [| done].
      intros _. by rewrite (space_char c Hsp), (all_space_chars r Hall).
Qed.

Lemma lstrip_chars s :
  Str.all int_char (Py.lstrip s) = true → Str.all int_char s = true.
Proof.
  induction s as [| c s IH]; [done |]. cbn [Py.lstrip].
  destruct (Py.is_space c) eqn:Hsp; [| done].
  intros Hs. cbn. by rewrite (space_char c Hsp), IH.
Qed.

Lemma int_of_str_chars s v : Py.int_of_str s = Some v → Str.all int_char s = true.
Proof.
  unfold Py.int_of_str. intros Hv. apply lstrip_chars.
  destruct (Py.lstrip s) as [| c r]; [done |].
  assert (∀ neg c' r',
            match
              match r' with
              | String c r =>
                  match Py.digit_val c with
                  | Some d =>
                      match Py.int_digits r d with
                      | Some v => Some (if neg : bool then (- v)%Z else v)
                      | None => None
                      end
                  | None => None
                  end
              | EmptyString => None
              end
            with Some _ => True | None => False end →
            int_char c' = true → Str.all int_char (String c' r') = true) as Hrest.
  { intros neg c' [| c2 r2] Hsome Hc'; [done |]. cbn. rewrite Hc'. cbn.
    destruct (Py.digit_val c2) as [d |] eqn:Hd; [| done].
    destruct (Py.int_digits r2 d) as [v' |] eqn:Hr; [| done].
    by rewrite (digit_val_char c2 d Hd), (int_digits_chars r2 d v' Hr). }
  destruct (Ascii.eqb_spec c "-"%char) as [-> | Hm].
  { apply (Hrest true); [by rewrite Hv | done]. }
  destruct (Ascii.eqb_spec c "+"%char) as [-> | Hp].
  { apply (Hrest false); [by rewrite Hv | done]. }
  cbn. destruct (Py.digit_val c) as [d |] eqn:Hd; [| done].
  destruct (Py.int_digits r d) as [v' |] eqn:Hr; [| done].
  by rewrite (digit_val_char c d Hd), (int_digits_chars r d v' Hr).
Qed.

Lemma int_format_chars qn v :
  Py.int qn = Some v → Str.all int_char (Py.format qn) = true.
Proof.
  destruct qn as [z | s]; cbn.
  - intros _. apply (all_weaken digit_or_dash); [| apply all_of_Z].
    intros c Hc. unfold int_char. by rewrite Hc, orb_true_r.
  - apply int_of_str_chars.
Qed.

(** A question number that [int()] accepts has no slash in its text. *)
Lemma int_format_no_slash qn v :
  Py.int qn = Some v → Str.has_char Str.slash (Py.format qn) = false.
Proof.
  intros Hv. by apply (all_has_char int_char), (int_format_chars qn v).
Qed.

Lemma HMS_no_slash t : Str.has_char Str.slash (strftime_HMS t) = false.
Proof. by apply (all_has_char digit_or_dash), all_strftime_HMS. Qed.

Lemma video_name_no_slash qn t :
  Str.has_char Str.slash (Py.format qn) = false →
  Str.has_char Str.slash (video_name qn (strftime_HMS t)) = false.
Proof.
  intros Hq. unfold video_name.
  by rewrite !has_char_append, Hq, HMS_no_slash.
Qed.

Lemma metadata_name_no_slash qn :
  Str.has_char Str.slash (Py.format qn) = false →
  Str.has_char Str.slash (metadata_name qn) = false.
Proof.
  intros Hq. unfold metadata_name. by rewrite !has_char_append, Hq.
Qed.

(** A name without slashes that starts with a character other than a slash
    or a dot is a path of one component. *)
Lemma parse_name c r :
  Ascii.eqb c Str.slash = false → Ascii.eqb c "."%char = false →
  Str.has_char Str.slash r = false →
  PurePath.parse (String c r) = mk_ppath "" [String c r].
Proof.
  intros Hslash Hdot Hr.
  unfold PurePath.parse, PurePath.splitroot. rewrite Hslash.
  rewrite split_no_slash by (cbn; by rewrite Hslash, Hr).
  cbn. unfold PurePath.keep_part. cbn. by rewrite Hdot.
Qed.

Lemma join_name (folder : ppath) c r :
  Ascii.eqb c Str.slash = false → Ascii.eqb c "."%char = false →
  Str.has_char Str.slash r = false →
  folder </> String c r = PurePath.child folder (String c r).
Proof.
  intros. unfold PurePath.joinpath. by rewrite parse_name.
Qed.

Lemma join_video_name folder qn t :
  Str.has_char Str.slash (Py.format qn) = false →
  folder </> video_name qn (strftime_HMS t)
  = PurePath.child folder (video_name qn (strftime_HMS t)).
Proof.
  intros Hq. pose proof (video_name_no_slash qn t Hq) as Hn.
  unfold video_name in *. rewrite !append_cons in *.
  apply join_name; [done | done |]. cbn in Hn. exact Hn.
Qed.

Lemma join_metadata_name folder qn :
  Str.has_char Str.slash (Py.format qn) = false →
  folder </> metadata_name qn = PurePath.child folder (metadata_name qn).
Proof.
  intros Hq. pose proof (metadata_name_no_slash qn Hq) as Hn.
  unfold metadata_name in *. rewrite !append_cons in *.
  apply join_name; [done | done |]. cbn in Hn. exact Hn.
Qed.

(** The video and the metadata file of one question have different names. *)
Lemma video_name_not_metadata_name qn t :
  video_name qn (strftime_HMS t) ≠ metadata_name qn.
Proof.
  unfold video_name, metadata_name. intros Heq.
  apply (inj (String.append "question_")) in Heq.
  apply (inj (String.append (Py.format qn))) in Heq.
  pose proof (all_strftime_HMS t) as Hall.
  destruct (strftime_HMS t) as [| c r]; [discriminate |].
  rewrite !append_cons in Heq. injection Heq as Hc Heq.
  subst c. cbn in Hall. discriminate.
Qed.

(** Different times of day give different video names. *)
Lemma video_name_inj qn ts1 ts2 :
  video_name qn ts1 = video_name qn ts2 → ts1 = ts2.
Proof.
  unfold video_name. intros Heq.
  apply (inj (String.append "question_")) in Heq.
  apply (inj (String.append (Py.format qn))) in Heq.
  apply (inj (String.append "_")) in Heq.
  by apply append_inj_r in Heq.
Qed.

End NameFacts.

(** ** Facts about path resolution *)

Module PosixFacts.
Import Posix.

(** Directories of [t] are still directories in [t']. *)
Definition dirs_kept (t t' : gmap (list string) node) : Prop :=
  ∀ k, node_at t k = Some Dir → node_at t' k = Some Dir.

Lemma dirs_kept_refl t : dirs_kept t t.
Proof. by intros k. Qed.

Lemma dirs_kept_trans t1 t2 t3 :
  dirs_kept t1 t2 → dirs_kept t2 t3 → dirs_kept t1 t3.
Proof. intros H12 H23 k Hk. by apply H23, H12. Qed.

Lemma node_at_insert_ne (t : gmap (list string) node) k k' n :
  k ≠ k' → node_at (<[k := n]> t) k' = node_at t k'.
Proof.
  intros Hne. destruct k' as [| c k']; [done |].
  cbn. by rewrite lookup_insert_ne.
Qed.

Lemma node_at_insert (t : gmap (list string) node) k n :
  k ≠ [] → node_at (<[k := n]> t) k = Some n.
Proof.
  intros Hne. destruct k as [| c k]; [done |].
  cbn. by rewrite lookup_insert_eq.
Qed.

Lemma node_at_None (t : gmap (list string) node) k :
  node_at t k = None → k ≠ [] ∧ t !! k = None.
Proof. destruct k; [done |]. cbn. auto. Qed.

Lemma node_at_not_root (t : gmap (list string) node) k :
  node_at t k ≠ Some Dir → k ≠ [].
Proof. by destruct k. Qed.

Lemma node_at_lookup (t : gmap (list string) node) k :
  k ≠ [] → node_at t k = t !! k.
Proof. by destruct k. Qed.

(** Writing a file where no directory is keeps all directories. *)
Lemma dirs_kept_insert_file (t : gmap (list string) node) k d :
  node_at t k ≠ Some Dir → dirs_kept t (<[k := File d]> t).
Proof.
  intros Hk k' Hk'. rewrite node_at_insert_ne; [done |]. by intros ->.
Qed.

Lemma dirs_kept_insert_dir (t : gmap (list string) node) k :
  dirs_kept t (<[k := Dir]> t).
Proof.
  intros k' Hk'. destruct (decide (k = k')) as [<- | Hne].
  - destruct k; [done |]. cbn. by rewrite lookup_insert_eq.
  - by rewrite node_at_insert_ne.
Qed.

Lemma walk_app t cur a b :
  walk t cur (a ++ b)
  = match walk t cur a with
    | inr k => walk t k b
    | inl e => inl e
    end.
Proof.
  revert cur. induction a as [| c a IH]; intros cur; [done |].
  cbn. destruct (node_at t cur) as [[] |]; [done | | done].
  destruct (String.eqb c ".."); [apply IH |].
  destruct (String.eqb c "." || String.eqb c ""); apply IH.
Qed.

(** A successful walk only looks at directories, so it is not disturbed by
    changes that keep them. *)
Lemma walk_kept t t' cur comps k :
  dirs_kept t t' → walk t cur comps = inr k → walk t' cur comps = inr k.
Proof.
  intros Hkept. revert cur. induction comps as [| c comps IH]; intros cur; [done |].
  cbn. destruct (node_at t cur) as [[] |] eqn:Hcur; [done | | done].
  rewrite (Hkept cur Hcur).
  destruct (String.eqb c ".."); [apply IH |].
  destruct (String.eqb c "." || String.eqb c ""); apply IH.
Qed.

Lemma resolve_kept w w' p k :
  cwd w' = cwd w → dirs_kept (tree w) (tree w') →
  resolve w p = inr k → resolve w' p = inr k.
Proof.
  intros Hcwd Hkept. unfold resolve, start. rewrite Hcwd.
  destruct (node_at (tree w) _) as [[] |] eqn:Hstart; [done | | done].
  rewrite (Hkept _ Hstart). by apply walk_kept.
Qed.

(** A component that names an entry: not empty, not [.] and not [..]. *)
Definition proper_name (c : string) : Prop := c ≠ ".." ∧ c ≠ "." ∧ c ≠ "".

Lemma walk_proper t cur c :
  proper_name c →
  walk t cur [c]
  = match node_at t cur with
    | Some Dir => inr (cur ++ [c])
    | Some (File _) => inl ENOTDIR
    | None => inl ENOENT
    end.
Proof.
  intros (Hup & Hdot & Hempty). cbn.
  destruct (node_at t cur) as [[] |]; [done | | done].
  destruct (String.eqb_spec c ".."); [done |].
  destruct (String.eqb_spec c "."); [done |].
  by destruct (String.eqb_spec c "").
Qed.

(** The entry [c] of the directory that [p] names. *)
Lemma resolve_child w p c k0 :
  proper_name c → resolve w p = inr k0 → node_at (tree w) k0 = Some Dir →
  resolve w (PurePath.child p c) = inr (k0 ++ [c]).
Proof.
  intros Hc. unfold resolve, start, PurePath.child. cbn [proot parts].
  destruct (node_at (tree w) _) as [[] |]; [done | | done].
  intros Hp Hdir. by rewrite walk_app, Hp, walk_proper, Hdir.
Qed.

Lemma resolve_child_inv w p c k :
  proper_name c → resolve w (PurePath.child p c) = inr k →
  ∃ k0, resolve w p = inr k0 ∧ node_at (tree w) k0 = Some Dir ∧ k = k0 ++ [c].
Proof.
  intros Hc. unfold resolve, start, PurePath.child. cbn [proot parts].
  destruct (node_at (tree w) _) as [[] |]; [done | | done].
  rewrite walk_app. destruct (walk (tree w) _ (parts p)) as [e | k0]; [done |].
  rewrite walk_proper by done.
  destruct (node_at (tree w) k0) as [[] |] eqn:Hk0; [done | | done].
  intros [= <-]. by exists k0.
Qed.

End PosixFacts.

(** ** What the file-system calls do to the world *)

Module OpFacts.
Import Posix PosixFacts.

Lemma bind_inv {A B} (m : M A) (f : A -> M B) w r w' :
  bind m f w = (r, w') →
  (∃ e, m w = (inl e, w') ∧ r = inl e)
  ∨ (∃ a w1, m w = (inr a, w1) ∧ f a w1 = (r, w')).
Proof.
  unfold bind. destruct (m w) as [[e | a] w1].
  - intros [= <- <-]. left. by exists e.
  - intros Hf. right. by exists a, w1.
Qed.

(** The tree of [w'] is that of [w] with some directories added. *)
Definition grows (w w' : world) : Prop :=
  cwd w' = cwd w ∧ clock w' = clock w ∧ ticks w' = ticks w ∧
  ∀ k, tree w' !! k = tree w !! k ∨ (tree w !! k = None ∧ tree w' !! k = Some Dir).

Lemma grows_refl w : grows w w.
Proof. repeat split. by left. Qed.

Lemma grows_trans w1 w2 w3 : grows w1 w2 → grows w2 w3 → grows w1 w3.
Proof.
  intros (Hc1 & Hk1 & Ht1 & H1) (Hc2 & Hk2 & Ht2 & H2).
  repeat split; [congruence.. |]. intros k.
  destruct (H1 k) as [E1 | [N1 D1]], (H2 k) as [E2 | [N2 D2]].
  - left. congruence.
  - right. split; congruence.
  - right. split; congruence.
  - congruence.
Qed.

Lemma grows_dirs_kept w w' : grows w w' → dirs_kept (tree w) (tree w').
Proof.
  intros (_ & _ & _ & H) k Hk. destruct k as [| c k]; [done |]. cbn in *.
  destruct (H (c :: k)) as [E | [N _]]; congruence.
Qed.

Lemma os_mkdir_grows p w r w' : Path.os_mkdir p w = (r, w') → grows w w'.
Proof.
  unfold Path.os_mkdir.
  destruct (resolve w p) as [en | k]; [intros [= <- <-]; apply grows_refl |].
  destruct (node_at (tree w) k) as [n |] eqn:Hk; intros [= <- <-];
    [apply grows_refl |].
  apply node_at_None in Hk as [Hne Hk].
  repeat split. intros k'. cbn.
  destruct (decide (k = k')) as [<- | Hkk'].
  - right. by rewrite lookup_insert_eq.
  - left. by rewrite lookup_insert_ne.
Qed.

Lemma os_mkdir_ok p w w' :
  Path.os_mkdir p w = (inr tt, w') → path_is_dir w' p = true.
Proof.
  unfold Path.os_mkdir.
  destruct (resolve w p) as [en | k] eqn:Hres; [done |].
  destruct (node_at (tree w) k) as [n |] eqn:Hk; [done |].
  intros [= <-]. unfold path_is_dir.
  rewrite (resolve_kept w _ p k); [| done | apply dirs_kept_insert_dir | done].
  unfold is_dir_at. cbn [tree with_tree].
  apply node_at_None in Hk as [Hne _]. by rewrite node_at_insert.
Qed.

Lemma mkdir_exist_ok_grows p w r w' : Path.mkdir_exist_ok p w = (r, w') → grows w w'.
Proof.
  unfold Path.mkdir_exist_ok, try_except.
  destruct (Path.os_mkdir p w) as [[e | []] w1] eqn:Hmk.
  - apply os_mkdir_grows in Hmk.
    destruct e; unfold bind, Path.is_dir, raise, ret;
      repeat match goal with |- context [if ?b then _ else _] => destruct b end;
      by intros [= <- <-].
  - intros [= <- <-]. by apply os_mkdir_grows in Hmk.
Qed.

Lemma mkdir_exist_ok_ok p w w' :
  Path.mkdir_exist_ok p w = (inr tt, w') → path_is_dir w' p = true.
Proof.
  unfold Path.mkdir_exist_ok, try_except.
  destruct (Path.os_mkdir p w) as [[e | []] w1] eqn:Hmk.
  - destruct e; unfold bind, Path.is_dir, raise, ret; try done;
      destruct (path_is_dir w1 p) eqn:Hd; by intros [= <-].
  - intros [= <-]. by apply os_mkdir_ok in Hmk.
Qed.

Lemma mkdir_parents_rev_grows r rparts w res w' :
  Path.mkdir_parents_rev r rparts w = (res, w') → grows w w'.
Proof.
  revert w res w'. induction rparts as [| c up IH]; intros w res w'.
  - cbn [Path.mkdir_parents_rev]. unfold try_except.
    destruct (Path.os_mkdir _ w) as [[e | []] w1] eqn:Hmk;
      apply os_mkdir_grows in Hmk.
    + destruct e; unfold bind, Path.is_dir, raise, ret;
        repeat match goal with |- context [if ?b then _ else _] => destruct b end;
        by intros [= <- <-].
    + by intros [= <- <-].
  - cbn [Path.mkdir_parents_rev]. unfold try_except.
    destruct (Path.os_mkdir _ w) as [[e | []] w1] eqn:Hmk;
      apply os_mkdir_grows in Hmk.
    + destruct e;
        try (unfold bind, Path.is_dir, raise, ret;
             repeat match goal with |- context [if ?b then _ else _] => destruct b end;
             by intros [= <- <-]).
      intros Hrun. apply bind_inv in Hrun as [(e & Hup & ->) | ([] & w2 & Hup & Hlast)].
      * apply (grows_trans _ w1); [done |]. by apply IH in Hup.
      * apply (grows_trans _ w1); [done |]. apply (grows_trans _ w2).
        -- by apply IH in Hup.
        -- by apply mkdir_exist_ok_grows in Hlast.
    + by intros [= <- <-].
Qed.

Lemma mkdir_parents_rev_ok r rparts w w' :
  Path.mkdir_parents_rev r rparts w = (inr tt, w') →
  path_is_dir w' (mk_ppath r (rev rparts)) = true.
Proof.
  destruct rparts as [| c up]; cbn [Path.mkdir_parents_rev]; unfold try_except;
    (destruct (Path.os_mkdir _ w) as [[e | []] w1] eqn:Hmk;
     [| intros [= <-]; by apply os_mkdir_ok in Hmk]).
  - destruct e; unfold bind, Path.is_dir, raise, ret; try done;
      destruct (path_is_dir w1 _) eqn:Hd; by intros [= <-].
  - destruct e;
      try (unfold bind, Path.is_dir, raise, ret; try done;
           destruct (path_is_dir w1 _) eqn:Hd; by intros [= <-]).
    intros Hrun. apply bind_inv in Hrun as [(e & Hup & ?) | ([] & w2 & Hup & Hlast)];
      [done |].
    by apply mkdir_exist_ok_ok in Hlast.
Qed.

Lemma mkdir_parents_grows p w res w' :
  Path.mkdir_parents p w = (res, w') → grows w w'.
Proof. apply mkdir_parents_rev_grows. Qed.

Lemma mkdir_parents_ok p w w' :
  Path.mkdir_parents p w = (inr tt, w') → path_is_dir w' p = true.
Proof.
  unfold Path.mkdir_parents. intros Hrun.
  apply mkdir_parents_rev_ok in Hrun. rewrite rev_involutive in Hrun.
  by destruct p.
Qed.

(** A write that succeeds puts the bytes at the resolved path, which was not
    a directory; a write that fails changes nothing. *)
Lemma write_bytes_ok p d w w' :
  Path.write_bytes p d w = (inr tt, w') →
  ∃ k, resolve w p = inr k ∧ node_at (tree w) k ≠ Some Dir
       ∧ w' = with_tree w (<[k := File d]> (tree w)).
Proof.
  unfold Path.write_bytes.
  destruct (resolve w p) as [en | k]; [done |].
  destruct (node_at (tree w) k) as [[] |] eqn:Hk; intros [= <-]; exists k;
    by rewrite ?Hk.
Qed.

Lemma write_bytes_err p d w e w' :
  Path.write_bytes p d w = (inl e, w') → w' = w.
Proof.
  unfold Path.write_bytes.
  destruct (resolve w p) as [en | k]; [by intros [= _ <-] |].
  by destruct (node_at (tree w) k) as [[] |]; intros [= <-].
Qed.


(** What [create_session_folder] does: one clock reading, then directories. *)
Lemma create_session_folder_run self session_id w r w' :
  create_session_folder self session_id w = (r, w') →
  grows (tick w) w'
  ∧ ∀ folder, r = inr folder →
      folder = base_path self </> strftime_Ymd (clock w (ticks w)) </> session_id
      ∧ path_is_dir w' folder = true.
Proof.
  unfold create_session_folder, bind, now.
  destruct (Path.mkdir_parents _ (tick w)) as [[e | []] w1] eqn:Hmk.
  - intros [= <- <-]. split; [by apply mkdir_parents_grows in Hmk | done].
  - unfold ret. intros [= <- <-]. split; [by apply mkdir_parents_grows in Hmk |].
    intros folder [= <-]. split; [done |]. by apply mkdir_parents_ok in Hmk.
Qed.

End OpFacts.

(** ** A successful [save_video], step by step *)

Module SaveFacts.
Import Posix PosixFacts OpFacts NameFacts.

Lemma video_name_proper qn ts : proper_name (video_name qn ts).
Proof. unfold video_name. rewrite !StrFacts.append_cons. by repeat split. Qed.

Lemma metadata_name_proper qn : proper_name (metadata_name qn).
Proof. unfold metadata_name. rewrite !StrFacts.append_cons. by repeat split. Qed.

(** Everything a successful call has done: the session folder [kf] exists,
    the video went to the entry [video_name] of it and the metadata to the
    entry [metadata_name], and the clock was read three times. *)
Lemma save_video_ok_inv self data sid qn text w fp ap md w' :
  save_video self data sid qn text w = (inr (SaveOk fp ap md), w') →
  let folder := base_path self </> strftime_Ymd (clock w (ticks w)) </> sid in
  let vname := video_name qn (strftime_HMS (clock w (S (ticks w)))) in
  let file_path := PurePath.child folder vname in
  ∃ w1 n rel kf,
    grows (tick w) w1
    ∧ Py.int qn = Some n
    ∧ folder </> vname = file_path
    ∧ folder </> metadata_name qn = PurePath.child folder (metadata_name qn)
    ∧ PurePath.relative_to file_path (base_path self) = Some rel
    ∧ resolve w1 folder = inr kf
    ∧ node_at (tree w1) kf = Some Dir
    ∧ node_at (tree w1) (kf ++ [vname]) ≠ Some Dir
    ∧ node_at (tree w1) (kf ++ [metadata_name qn]) ≠ Some Dir
    ∧ md = mk_metadata sid n text vname
             (isoformat (clock w (S (S (ticks w))))) (PurePath.to_str rel) (length data)
    ∧ fp = PurePath.to_str rel
    ∧ ap = PurePath.to_str file_path
    ∧ tree w' = <[kf ++ [metadata_name qn] := File (metadata_json md)]>
                  (<[kf ++ [vname] := File data]> (tree w1))
    ∧ cwd w' = cwd w ∧ clock w' = clock w ∧ ticks w' = S (S (S (ticks w))).
Proof.
  intros Hrun folder vname file_path.
  unfold save_video, try_except in Hrun.
  destruct (save_video_try self data sid qn text w) as [[e | r] w0] eqn:Htry;
    [discriminate |].
  injection Hrun as -> ->.
  unfold save_video_try in Htry.
  apply bind_inv in Htry as [(e & _ & ?) | (folder' & w1 & Hmk & Htry)]; [done |].
  apply create_session_folder_run in Hmk as [Hgrow Hfolder].
  destruct (Hfolder folder' eq_refl) as [-> Hdir]. fold folder in Htry, Hdir.
  pose proof Hgrow as (Hcwd1 & Hclock1 & Hticks1 & _).
  cbn [tick cwd clock ticks] in Hcwd1, Hclock1, Hticks1.
  unfold bind at 1, now in Htry. rewrite Hclock1, Hticks1 in Htry.
  fold vname in Htry.
  apply bind_inv in Htry as [(e & _ & ?) | ([] & w2 & Hwrite & Htry)]; [done |].
  apply bind_inv in Htry as [(e & _ & ?) | (n & w3 & Hint & Htry)]; [done |].
  destruct (Py.int qn) as [n' |] eqn:Hqn; [| done].
  injection Hint as -> ->.
  pose proof (int_format_no_slash qn n Hqn) as Hslash.
  assert (folder </> vname = file_path) as Hvpath by apply join_video_name, Hslash.
  pose proof (join_metadata_name folder qn Hslash) as Hmpath.
  rewrite Hvpath in Hwrite, Htry. rewrite Hmpath in Htry.
  apply write_bytes_ok in Hwrite as (kv & Hkv & Hkvnode & ->).
  change (resolve (tick w1) ?p) with (resolve w1 p) in Hkv.
  cbn [tree tick] in Hkvnode.
  apply resolve_child_inv in Hkv as (kf & Hkf & Hkfdir & ->);
    [| apply video_name_proper].
  unfold bind at 1, now in Htry. cbn [clock ticks with_tree tick] in Htry.
  rewrite Hclock1, Hticks1 in Htry.
  apply bind_inv in Htry as [(e & _ & ?) | (rel & w4 & Hrel & Htry)]; [done |].
  unfold Path.relative_to, or_raise in Hrel.
  destruct (PurePath.relative_to file_path (base_path self)) as [rel' |] eqn:Hrelto;
    [| done].
  injection Hrel as -> <-.
  apply bind_inv in Htry as [(e & _ & ?) | ([] & w5 & Hwrite2 & Htry)]; [done |].
  apply write_bytes_ok in Hwrite2 as (km & Hkm & Hkmnode & ->).
  unfold bind, Path.relative_to, or_raise in Htry. rewrite Hrelto in Htry.
  unfold ret in Htry. injection Htry as Hmd Hw'.
  cbn [tree with_tree tick] in Hkmnode.
  set (w2 := tick (with_tree (tick w1) (<[kf ++ [vname] := File data]> (tree w1)))) in *.
  assert (resolve w2 folder = inr kf) as Hkf2.
  { apply (resolve_kept w1); [done | | done].
    by apply dirs_kept_insert_file. }
  assert (node_at (tree w2) kf = Some Dir) as Hkfdir2.
  { by apply (dirs_kept_insert_file (tree w1) _ data Hkvnode). }
  rewrite (resolve_child w2 folder (metadata_name qn) kf) in Hkm;
    [| apply metadata_name_proper | done | done].
  injection Hkm as <-.
  assert (kf ++ [vname] ≠ kf ++ [metadata_name qn]) as Hne.
  { intros Heq%(inj (app kf)).
    apply (video_name_not_metadata_name qn (clock w (S (ticks w)))).
    fold vname. congruence. }
  rewrite node_at_insert_ne in Hkmnode by done.
  subst md w'. exists w1, n, rel, kf. cbn [tree cwd clock ticks with_tree tick w2].
  rewrite Hticks1. split; [exact Hgrow |]. repeat split; done.
Qed.

End SaveFacts.

(** ** Path texts read back as the paths they were made from *)

Module PathFacts.
Import StrFacts.

(** A component as [PurePath.parse] produces them. *)
Definition valid_part (s : string) : Prop :=
  PurePath.keep_part s = true ∧ Str.has_char Str.slash s = false.

Lemma split_parts_no_slash s :
  Forall (fun x => Str.has_char Str.slash x = false) (Str.split s).
Proof.
  induction s as [| c s IH]; cbn; [by repeat constructor |].
  destruct (Ascii.eqb c Str.slash) eqn:Hc; [by constructor |].
  destruct (Str.split s) as [| h t]; [constructor; [cbn; by rewrite Hc | constructor] |].
  inversion IH as [| ? ? Hh Ht]; subst.
  constructor; [cbn; by rewrite Hc, Hh | done].
Qed.

Lemma parse_parts_valid s : Forall valid_part (parts (PurePath.parse s)).
Proof.
  unfold PurePath.parse. destruct (PurePath.splitroot s) as [r rel]. cbn [parts].
  pose proof (split_parts_no_slash rel) as Hsplit.
  induction Hsplit as [| x l Hx Hl IH]; cbn; [constructor |].
  destruct (PurePath.keep_part x) eqn:Hkeep; [| done].
  constructor; [by split | done].
Qed.

Lemma split_app_slash x s :
  Str.has_char Str.slash x = false →
  Str.split (x +:+ String Str.slash s) = x :: Str.split s.
Proof.
  induction x as [| c x IH]; [done |].
  cbn [Str.has_char]. intros [Hc Hx]%orb_false_iff.
  rewrite append_cons. cbn [Str.split]. by rewrite Hc, (IH Hx).
Qed.

Lemma split_join l :
  l ≠ [] → Forall (fun x => Str.has_char Str.slash x = false) l →
  Str.split (Str.join l) = l.
Proof.
  induction l as [| x l IH]; [done |]. intros _ Hall.
  inversion Hall as [| ? ? Hx Hl]; subst.
  destruct l as [| y l]; [by apply split_no_slash |].
  change (Str.join (x :: y :: l)) with (x +:+ String Str.slash (Str.join (y :: l))).
  rewrite split_app_slash by done. f_equal. by apply IH.
Qed.

Lemma filter_keep_valid l :
  Forall valid_part l → List.filter PurePath.keep_part l = l.
Proof.
  induction 1 as [| x l [Hkeep _] _ IH]; [done |]. cbn. by rewrite Hkeep, IH.
Qed.

Lemma join_starts l :
  l ≠ [] → Forall valid_part l →
  ∃ c r, Str.join l = String c r ∧ Ascii.eqb c Str.slash = false.
Proof.
  destruct l as [| x l]; [done |]. intros _ Hall.
  inversion Hall as [| ? ? [Hkeep Hslash] _]; subst.
  destruct x as [| c x]; [done |].
  cbn in Hslash. apply orb_false_iff in Hslash as [Hc _].
  destruct l as [| y l]; [by exists c, x |].
  exists c, (x +:+ String Str.slash (Str.join (y :: l))). done.
Qed.

Lemma parse_join l :
  l ≠ [] → Forall valid_part l → PurePath.parse (Str.join l) = mk_ppath "" l.
Proof.
  intros Hne Hall. destruct (join_starts l Hne Hall) as (c & r & Hjoin & Hc).
  unfold PurePath.parse, PurePath.splitroot. rewrite Hjoin, Hc, <- Hjoin.
  rewrite split_join; [by rewrite filter_keep_valid | done |].
  eapply Forall_impl; [exact Hall |]. by intros x [_ Hx].
Qed.

(** [PurePosixPath(str(p)) == p] for a relative path of parsed components. *)
Lemma parse_to_str l :
  Forall valid_part l →
  PurePath.parse (PurePath.to_str (mk_ppath "" l)) = mk_ppath "" l.
Proof.
  intros Hall. unfold PurePath.to_str. cbn [proot parts].
  change ("" +:+ Str.join l) with (Str.join l).
  destruct l as [| x l]; [done |].
  destruct (join_starts (x :: l)) as (c & r & Hjoin & _); [done.. |].
  rewrite Hjoin at 1. cbn [String.eqb]. by apply parse_join.
Qed.

Lemma strip_prefix_app pre l rest :
  PurePath.strip_prefix pre l = Some rest → l = pre ++ rest.
Proof.
  revert l. induction pre as [| x pre IH]; intros l; [by intros [= ->] |].
  destruct l as [| y l]; [done |]. cbn.
  destruct (String.eqb_spec x y) as [-> |]; [| done].
  intros Hrest. by rewrite (IH l Hrest).
Qed.

Lemma relative_to_inv p base rel :
  PurePath.relative_to p base = Some rel →
  proot rel = "" ∧ p = mk_ppath (proot base) (parts base ++ parts rel).
Proof.
  unfold PurePath.relative_to.
  destruct (String.eqb_spec (proot p) (proot base)) as [Hroot |]; [| done].
  destruct (PurePath.strip_prefix (parts base) (parts p)) as [rest |] eqn:Hstrip; [| done].
  intros [= <-]. apply strip_prefix_app in Hstrip.
  split; [done |]. destruct p as [r l]. cbn in *. by subst.
Qed.

(** Joining the text of [p.relative_to(base)] back onto [base] gives [p]. *)
Lemma relative_to_join p base rel :
  PurePath.relative_to p base = Some rel → Forall valid_part (parts rel) →
  base </> PurePath.to_str rel = p.
Proof.
  intros Hrel Hvalid. apply relative_to_inv in Hrel as [Hroot ->].
  destruct rel as [r l]. cbn in Hroot, Hvalid. subst r.
  unfold PurePath.joinpath. by rewrite parse_to_str.
Qed.

(** The components of [p] are parsed components, possibly after those of
    [base]. *)
Definition under (base p : ppath) : Prop :=
  ∃ l, Forall valid_part l ∧ (parts p = parts base ++ l ∨ parts p = l).

Lemma under_refl base : under base base.
Proof. exists []. split; [constructor | left; by rewrite app_nil_r]. Qed.

Lemma under_join base p s : under base p → under base (p </> s).
Proof.
  intros (l & Hl & Hp). unfold PurePath.joinpath.
  pose proof (parse_parts_valid s) as Hs.
  destruct (String.eqb (proot (PurePath.parse s)) "").
  - exists (l ++ parts (PurePath.parse s)). split; [by apply Forall_app |].
    cbn [parts]. destruct Hp as [-> | ->]; [left; by rewrite app_assoc | by right].
  - exists (parts (PurePath.parse s)). split; [done | by right].
Qed.

Lemma under_child base p c : valid_part c → under base p → under base (PurePath.child p c).
Proof.
  intros Hc (l & Hl & Hp). exists (l ++ [c]).
  split; [apply Forall_app; split; [done | by constructor] |].
  cbn [PurePath.child parts].
  destruct Hp as [-> | ->]; [left; by rewrite app_assoc | by right].
Qed.

Lemma under_relative base p rel :
  under base p → PurePath.relative_to p base = Some rel →
  Forall valid_part (parts rel).
Proof.
  intros (l & Hl & Hp) Hrel. apply relative_to_inv in Hrel as [_ ->].
  cbn [parts] in Hp. destruct Hp as [Hp | Hp].
  - by apply (inj (app (parts base))) in Hp as ->.
  - rewrite <- Hp in Hl. by apply Forall_app in Hl as [_ ?].
Qed.

End PathFacts.

(** ** Where a successful save leaves its two files *)

Module RoundTrip.
Import Posix PosixFacts OpFacts NameFacts SaveFacts PathFacts.

Lemma append_assoc a b c : (a +:+ b) +:+ c = a +:+ (b +:+ c).
Proof.
  induction a as [| x a IH]; [done |].
  rewrite !StrFacts.append_cons. by rewrite IH.
Qed.

Lemma dumps_items_snoc l kv :
  l ≠ [] →
  Json.dumps_items (l ++ [kv])
  = Json.dumps_items l +:+ "," +:+ Json.newline +:+ Json.dumps_item kv.
Proof.
  induction l as [| x l IH]; [done |]. intros _.
  destruct l as [| y l]; [done |].
  change (Json.dumps_items ((x :: y :: l) ++ [kv]))
    with (Json.dumps_item x +:+ "," +:+ Json.newline +:+ Json.dumps_items ((y :: l) ++ [kv])).
  rewrite IH by done.
  change (Json.dumps_items (x :: y :: l))
    with (Json.dumps_item x +:+ "," +:+ Json.newline +:+ Json.dumps_items (y :: l)).
  by rewrite !append_assoc.
Qed.

(** The last line of the metadata text is the [file_size] entry. *)
Lemma metadata_json_ends_with_file_size md :
  ∃ head,
    Json.dumps (metadata_items md)
    = head +:+ Json.dumps_item ("file_size", Json.JInt (Z.of_nat (md_file_size md)))
      +:+ Json.newline +:+ "}".
Proof.
  set (last := ("file_size", Json.JInt (Z.of_nat (md_file_size md)))).
  set (front := removelast (metadata_items md)).
  assert (metadata_items md = front ++ [last]) as -> by reflexivity.
  assert (front ≠ []) as Hfront by discriminate.
  exists ("{" +:+ Json.newline +:+ Json.dumps_items front +:+ "," +:+ Json.newline).
  unfold Json.dumps. destruct (front ++ [last]) eqn:Hl; [by destruct front |].
  rewrite <- Hl, dumps_items_snoc by done. by rewrite !append_assoc.
Qed.

(** After a successful call the video and the metadata are the entries
    [video_name] and [metadata_name] of the session folder. *)
Lemma save_video_ok_files self data sid qn text w fp ap md w' :
  save_video self data sid qn text w = (inr (SaveOk fp ap md), w') →
  let folder := base_path self </> strftime_Ymd (clock w (ticks w)) </> sid in
  let vname := video_name qn (strftime_HMS (clock w (S (ticks w)))) in
  ∃ kf,
    resolve w' folder = inr kf
    ∧ node_at (tree w') kf = Some Dir
    ∧ tree w' !! (kf ++ [vname]) = Some (File data)
    ∧ tree w' !! (kf ++ [metadata_name qn]) = Some (File (metadata_json md))
    ∧ base_path self </> fp = PurePath.child folder vname
    ∧ folder </> metadata_name qn = PurePath.child folder (metadata_name qn)
    ∧ md_file_size md = length data
    ∧ md_filename md = vname
    ∧ (∀ k, k ≠ kf ++ [vname] → k ≠ kf ++ [metadata_name qn] →
         tree w' !! k = tree w !! k ∨ (tree w !! k = None ∧ tree w' !! k = Some Dir))
    ∧ dirs_kept (tree w) (tree w')
    ∧ cwd w' = cwd w.
Proof.
  intros Hrun folder vname.
  destruct (save_video_ok_inv _ _ _ _ _ _ _ _ _ _ Hrun)
    as (w1 & n & rel & kf & Hgrow & Hqn & Hvpath & Hmpath & Hrel & Hkf & Hkfdir
        & Hkv & Hkm & -> & -> & -> & Htree & Hcwd & _).
  fold folder vname in Hvpath, Hmpath, Hrel, Hkf, Hkv, Htree.
  pose proof (grows_dirs_kept _ _ Hgrow) as Hkept0.
  destruct Hgrow as (Hcwd1 & _ & _ & Hgrow).
  assert (kf ++ [vname] ≠ kf ++ [metadata_name qn]) as Hne.
  { intros Heq%(inj (app kf)).
    apply (video_name_not_metadata_name qn (clock w (S (ticks w)))).
    fold vname. congruence. }
  assert (dirs_kept (tree w1) (tree w')) as Hkept.
  { rewrite Htree.
    apply (dirs_kept_trans _ (<[kf ++ [vname] := File data]> (tree w1)));
      [by apply dirs_kept_insert_file |].
    apply dirs_kept_insert_file. by rewrite node_at_insert_ne. }
  exists kf. repeat split.
  - apply (resolve_kept w1); [| done | done]. cbn in Hcwd1. congruence.
  - by apply Hkept.
  - by rewrite Htree, lookup_insert_ne, lookup_insert_eq.
  - by rewrite Htree, lookup_insert_eq.
  - apply relative_to_join; [done |].
    apply (under_relative (base_path self) (PurePath.child folder vname)); [| done].
    apply under_child; [| by apply under_join, under_join, under_refl].
    split; [| by apply video_name_no_slash, (int_format_no_slash qn n)].
    unfold vname, video_name. by rewrite !StrFacts.append_cons.
  - done.
  - intros k Hkv' Hkm'. rewrite Htree, !lookup_insert_ne by done. apply Hgrow.
  - by apply (dirs_kept_trans _ (tree w1)).
  - done.
Qed.

Lemma read_entry w p kf name d :
  proper_name name → resolve w p = inr kf → node_at (tree w) kf = Some Dir →
  tree w !! (kf ++ [name]) = Some (File d) →
  read_file w (PurePath.child p name) = Some d.
Proof.
  intros Hname Hp Hdir Hfile. unfold read_file.
  rewrite (resolve_child w p name kf) by done.
  rewrite node_at_lookup by (by destruct kf). by rewrite Hfile.
Qed.

End RoundTrip.

(** C1: whenever [save_video] reports success, the file named by the returned
    relative path (taken below the storage root) holds exactly the bytes that
    were passed in, and the metadata file of the question holds the JSON text
    of the returned metadata record, whose [file_size] is the number of those
    bytes and is what the last line of that text says. *)
Theorem save_video_round_trip (self : LocalVideoStorage) (video_data : list Byte.byte)
    (session_id : string) (question_number : pyval) (question_text : string)
    (w w' : world) (file_path absolute_path : string) (md : metadata) :
  save_video self video_data session_id question_number question_text w
  = (inr (SaveOk file_path absolute_path md), w') →
  Posix.read_file w' (base_path self </> file_path) = Some video_data
  ∧ Posix.read_file w'
      (base_path self </> strftime_Ymd (clock w (ticks w)) </> session_id
         </> metadata_name question_number)
    = Some (metadata_json md)
  ∧ md_file_size md = length video_data
  ∧ ∃ head,
      String.string_of_list_byte (metadata_json md)
      = head +:+ Json.dumps_item ("file_size", Json.JInt (Z.of_nat (length video_data)))
        +:+ Json.newline +:+ "}".
Proof.
  intros Hrun.
  destruct (RoundTrip.save_video_ok_files _ _ _ _ _ _ _ _ _ _ Hrun)
    as (kf & Hkf & Hdir & Hvideo & Hmeta & -> & -> & Hsize & _).
  repeat split.
  - eapply RoundTrip.read_entry; eauto using SaveFacts.video_name_proper.
  - eapply RoundTrip.read_entry; eauto using SaveFacts.metadata_name_proper.
  - exact Hsize.
  - unfold metadata_json. rewrite String.string_of_list_byte_of_string, <- Hsize.
    apply RoundTrip.metadata_json_ends_with_file_size.
Qed.

Lemma save_video_round_trip_witness :
  fst Sample.saved = inr (SaveOk Sample.video_rel Sample.video_abs Sample.saved_metadata)
  ∧ Posix.read_file (snd Sample.saved) (Sample.root </> Sample.video_rel)
    = Some Sample.two_bytes
  ∧ Posix.read_file (snd Sample.saved)
      (Sample.root </> "2024-06-01" </> "sess-A" </> "question_3_metadata.json")
    = Some (metadata_json Sample.saved_metadata)
  ∧ md_file_size Sample.saved_metadata = 2.
Proof.
  assert (save_video Sample.store Sample.two_bytes "sess-A" (PyInt 3) Sample.tell
            Sample.empty_world
          = (inr (SaveOk Sample.video_rel Sample.video_abs Sample.saved_metadata),
             snd Sample.saved)) as Hrun.
  { vm_compute. reflexivity. }
  destruct (save_video_round_trip _ _ _ _ _ _ _ _ _ _ Hrun)
    as (Hvideo & Hmeta & Hsize & _).
  split; [| split; [| split]].
  - vm_compute. reflexivity.
  - exact Hvideo.
  - exact Hmeta.
  - exact Hsize.
Defined.

(** ** Saving the same question twice *)

(** C2 (as amended): when two successive calls for the same session and
    question both succeed, on the same calendar day and at different times
    of day (to the second), the two videos are two different files that both
    exist afterwards with their own bytes, while the metadata of both calls
    went to one and the same file, which held the first record after the
    first call and holds the second record after the second. *)
Theorem second_save_overwrites_metadata_only (self : LocalVideoStorage)
    (session_id : string) (question_number : pyval)
    (data1 data2 : list Byte.byte) (text1 text2 : string) (w w1 w2 : world)
    (fp1 ap1 fp2 ap2 : string) (md1 md2 : metadata) :
  save_video self data1 session_id question_number text1 w
  = (inr (SaveOk fp1 ap1 md1), w1) →
  save_video self data2 session_id question_number text2 w1
  = (inr (SaveOk fp2 ap2 md2), w2) →
  strftime_Ymd (clock w (ticks w)) = strftime_Ymd (clock w1 (ticks w1)) →
  strftime_HMS (clock w (S (ticks w))) ≠ strftime_HMS (clock w1 (S (ticks w1))) →
  let metadata_path :=
    base_path self </> strftime_Ymd (clock w (ticks w)) </> session_id
      </> metadata_name question_number in
  (∃ k1 k2,
      k1 ≠ k2
      ∧ Posix.resolve w2 (base_path self </> fp1) = inr k1
      ∧ Posix.resolve w2 (base_path self </> fp2) = inr k2
      ∧ tree w2 !! k1 = Some (File data1)
      ∧ tree w2 !! k2 = Some (File data2))
  ∧ md_filename md1 ≠ md_filename md2
  ∧ Posix.read_file w1 metadata_path = Some (metadata_json md1)
  ∧ Posix.read_file w2 metadata_path = Some (metadata_json md2).
Proof.
  intros Hrun1 Hrun2 Hday Htime metadata_path.
  destruct (RoundTrip.save_video_ok_files _ _ _ _ _ _ _ _ _ _ Hrun1)
    as (kf & Hkf & Hdir & Hvideo1 & Hmeta1 & Hfp1 & Hmpath & _ & Hname1 & _ & _ & _).
  destruct (RoundTrip.save_video_ok_files _ _ _ _ _ _ _ _ _ _ Hrun2)
    as (kf' & Hkf' & Hdir' & Hvideo2 & Hmeta2 & Hfp2 & _ & _ & Hname2 & Hframe2 & Hkept2 & Hcwd2).
  rewrite <- Hday in Hkf', Hfp2.
  set (folder := base_path self </> strftime_Ymd (clock w (ticks w)) </> session_id) in *.
  set (v1 := video_name question_number (strftime_HMS (clock w (S (ticks w))))) in *.
  set (v2 := video_name question_number (strftime_HMS (clock w1 (S (ticks w1))))) in *.
  assert (kf' = kf) as ->.
  { pose proof (PosixFacts.resolve_kept w1 w2 folder kf Hcwd2 Hkept2 Hkf) as Hsame.
    congruence. }
  assert (v1 ≠ v2) as Hv.
  { intros Heq. by apply NameFacts.video_name_inj in Heq. }
  assert (kf ++ [v1] ≠ kf ++ [v2]) as Hk.
  { intros Heq%(inj (app kf)). congruence. }
  assert (kf ++ [v1] ≠ kf ++ [metadata_name question_number]) as Hkm.
  { intros Heq%(inj (app kf)).
    apply (NameFacts.video_name_not_metadata_name question_number
             (clock w (S (ticks w)))).
    fold v1. congruence. }
  repeat split.
  - exists (kf ++ [v1]), (kf ++ [v2]). repeat split; [done | | | | done].
    + rewrite Hfp1.
      by apply PosixFacts.resolve_child; [apply SaveFacts.video_name_proper | |].
    + rewrite Hfp2.
      by apply PosixFacts.resolve_child; [apply SaveFacts.video_name_proper | |].
    + destruct (Hframe2 (kf ++ [v1]) Hk Hkm) as [-> | [Hnone _]]; congruence.
  - congruence.
  - unfold metadata_path. fold folder. rewrite Hmpath.
    eapply RoundTrip.read_entry; eauto using SaveFacts.metadata_name_proper.
  - unfold metadata_path. fold folder. rewrite Hmpath.
    eapply RoundTrip.read_entry; eauto using SaveFacts.metadata_name_proper.
Qed.

Lemma second_save_overwrites_metadata_only_witness :
  ∃ md1 md2 w1 w2,
    Sample.first_save = (inr (SaveOk Sample.video_rel Sample.video_abs md1), w1)
    ∧ Sample.second_save
      = (inr (SaveOk Sample.video_rel_later
                "/srv/video_interviews/2024-06-01/sess-A/question_3_14-05-11.webm" md2), w2)
    ∧ (∃ k1 k2,
          k1 ≠ k2
          ∧ Posix.resolve w2 (base_path Sample.store </> Sample.video_rel) = inr k1
          ∧ Posix.resolve w2 (base_path Sample.store </> Sample.video_rel_later) = inr k2
          ∧ tree w2 !! k1 = Some (File Sample.two_bytes)
          ∧ tree w2 !! k2 = Some (File Sample.three_bytes))
    ∧ Posix.read_file w2
        (Sample.root </> "2024-06-01" </> "sess-A" </> "question_3_metadata.json")
      = Some (metadata_json md2).
Proof.
  set (md1 := mk_metadata "sess-A" 3 "first" "question_3_14-05-10.webm"
                "2024-06-01T14:05:10" Sample.video_rel 2).
  set (md2 := mk_metadata "sess-A" 3 "second" "question_3_14-05-11.webm"
                "2024-06-01T14:05:11" Sample.video_rel_later 3).
  assert (Sample.first_save
          = (inr (SaveOk Sample.video_rel Sample.video_abs md1), snd Sample.first_save))
    as Hrun1 by (vm_compute; reflexivity).
  assert (save_video Sample.store Sample.three_bytes "sess-A" (PyInt 3) "second"
            (snd Sample.first_save)
          = (inr (SaveOk Sample.video_rel_later
                    "/srv/video_interviews/2024-06-01/sess-A/question_3_14-05-11.webm" md2),
             snd Sample.second_save))
    as Hrun2 by (vm_compute; reflexivity).
  exists md1, md2, (snd Sample.first_save), (snd Sample.second_save).
  split; [exact Hrun1 |]. split; [exact Hrun2 |].
  destruct (second_save_overwrites_metadata_only _ _ _ _ _ _ _ _ _ _ _ _ _ _ _ _
              Hrun1 Hrun2) as (Hvideos & _ & _ & Hmeta).
  - vm_compute. reflexivity.
  - vm_compute. discriminate.
  - split; [exact Hvideos | exact Hmeta].
Defined.

(** C2 fails as stated: two saves of the same question within one second
    both succeed and return the same path, and the session folder then holds
    a single video, with the bytes of the second save. *)
Lemma same_second_saves_share_one_video :
  (∃ md1 md2,
      fst Sample.first_save_same_second
      = inr (SaveOk Sample.video_rel Sample.video_abs md1)
      ∧ fst Sample.second_save_same_second
        = inr (SaveOk Sample.video_rel Sample.video_abs md2))
  ∧ List.filter (Str.ends_with ".webm")
      (Posix.entries (tree (snd Sample.second_save_same_second)) Sample.session_key)
    = ["question_3_14-05-10.webm"]
  ∧ Posix.read_file (snd Sample.second_save_same_second)
      (Sample.root </> Sample.video_rel)
    = Some Sample.three_bytes.
Proof.
  split; [| split].
  - eexists _, _. split; vm_compute; reflexivity.
  - vm_compute. reflexivity.
  - vm_compute. reflexivity.
Qed.

(** * Further properties of the storage and of the handlers *)

(** ** Creating the root and the session folders *)

Module FolderFacts.
Import Posix PosixFacts OpFacts.

(** [mkdir] on a path that already is a directory changes nothing. *)
Lemma mkdir_exist_ok_existing p w :
  path_is_dir w p = true → Path.mkdir_exist_ok p w = (inr tt, w).
Proof.
  unfold path_is_dir, Path.mkdir_exist_ok, try_except, Path.os_mkdir, is_dir_at.
  destruct (resolve w p) as [en | k] eqn:Hres; [done |].
  destruct (node_at (tree w) k) as [[] |] eqn:Hk; [done | | done].
  intros _. unfold bind, Path.is_dir, path_is_dir, is_dir_at, ret.
  by rewrite Hres, Hk.
Qed.

Lemma mkdir_parents_existing p w :
  path_is_dir w p = true → Path.mkdir_parents p w = (inr tt, w).
Proof.
  intros Hdir. unfold Path.mkdir_parents.
  assert (path_is_dir w (mk_ppath (proot p) (rev (rev (parts p)))) = true) as Hdir'.
  { rewrite rev_involutive. by destruct p. }
  revert Hdir'. generalize (rev (parts p)) as rparts. intros rparts Hdir'.
  unfold path_is_dir, is_dir_at in Hdir'.
  destruct rparts as [| c up]; cbn [Path.mkdir_parents_rev];
    unfold try_except, Path.os_mkdir;
    (destruct (resolve w _) as [en | k] eqn:Hres; [done |]);
    (destruct (node_at (tree w) k) as [[] |] eqn:Hk; [done | | done]);
    unfold bind, Path.is_dir, path_is_dir, is_dir_at, ret;
    by rewrite Hres, Hk.
Qed.

(** A missing parent makes the plain [mkdir] fail and leaves the tree alone. *)
Lemma mkdir_exist_ok_enoent p w :
  resolve w p = inl ENOENT →
  Path.mkdir_exist_ok p w = (inl (FileNotFoundError p), w).
Proof.
  intros Hres. unfold Path.mkdir_exist_ok, try_except, Path.os_mkdir.
  by rewrite Hres.
Qed.

(** A regular file in the way makes it fail with [FileExistsError]. *)
Lemma mkdir_exist_ok_file p w k d :
  resolve w p = inr k → node_at (tree w) k = Some (File d) →
  Path.mkdir_exist_ok p w = (inl (FileExistsError p), w).
Proof.
  intros Hres Hk. unfold Path.mkdir_exist_ok, try_except, Path.os_mkdir.
  rewrite Hres, Hk. unfold bind, Path.is_dir, path_is_dir, is_dir_at, raise.
  by rewrite Hres, Hk.
Qed.

Lemma init_run base w r w' :
  LocalVideoStorage_init base w = (r, w') →
  grows w w'
  ∧ (∀ self, r = inr self → base_path self = base ∧ path_is_dir w' base = true).
Proof.
  unfold LocalVideoStorage_init. intros Hrun.
  apply bind_inv in Hrun as [(e & Hmk & ->) | ([] & w1 & Hmk & Hret)].
  - split; [by apply mkdir_exist_ok_grows in Hmk | done].
  - unfold ret in Hret. injection Hret as <- <-.
    split; [by apply mkdir_exist_ok_grows in Hmk |].
    intros self [= <-]. split; [done |]. by apply mkdir_exist_ok_ok in Hmk.
Qed.

End FolderFacts.

(** X1: [LocalVideoStorage.__init__] never changes or removes an entry of the
    tree, it can only add directories; when it returns a store, the root of
    that store is the given path and is a directory afterwards. *)
Theorem init_only_adds_the_root (base : ppath) (w : world) :
  let run := LocalVideoStorage_init base w in
  cwd (snd run) = cwd w ∧ ticks (snd run) = ticks w
  ∧ (∀ k, tree (snd run) !! k = tree w !! k
          ∨ (tree w !! k = None ∧ tree (snd run) !! k = Some Dir))
  ∧ (∀ self, fst run = inr self →
       base_path self = base ∧ Posix.path_is_dir (snd run) base = true).
Proof.
  intros run. destruct (LocalVideoStorage_init base w) as [r w'] eqn:Hrun.
  subst run. cbn [fst snd].
  destruct (FolderFacts.init_run base w r w' Hrun) as [(Hcwd & _ & Hticks & Htree) Hok].
  split; [done |]. split; [done |]. split; [done |].
  intros self ->. exact (Hok self eq_refl).
Qed.

(** X2: [LocalVideoStorage.__init__] does not create missing parents: if the
    lookup of the root fails because a directory on the way is missing, the
    constructor raises [FileNotFoundError] and the world is unchanged; and if
    the root names a regular file it raises [FileExistsError]. *)
Theorem init_needs_the_parent (base : ppath) (w : world) :
  (Posix.resolve w base = inl ENOENT →
   LocalVideoStorage_init base w = (inl (FileNotFoundError base), w))
  ∧ (∀ d, Posix.read_file w base = Some d →
       LocalVideoStorage_init base w = (inl (FileExistsError base), w)).
Proof.
  split.
  - intros Hres. unfold LocalVideoStorage_init, bind.
    by rewrite FolderFacts.mkdir_exist_ok_enoent.
  - intros d. unfold Posix.read_file.
    destruct (Posix.resolve w base) as [en | k] eqn:Hres; [done |].
    destruct (Posix.node_at (tree w) k) as [[d' |] |] eqn:Hk; [| done | done].
    intros _. unfold LocalVideoStorage_init, bind.
    by rewrite (FolderFacts.mkdir_exist_ok_file base w k d').
Qed.

(** X3: [create_session_folder] reads the clock once and otherwise only adds
    directories: no entry of the tree is changed or removed.  When it returns,
    the folder is [<root>/<date>/<session_id>] for the date just read, and it
    is a directory afterwards. *)
Theorem create_session_folder_only_adds_directories (self : LocalVideoStorage)
    (session_id : string) (w : world) :
  let run := create_session_folder self session_id w in
  cwd (snd run) = cwd w ∧ ticks (snd run) = S (ticks w)
  ∧ (∀ k, tree (snd run) !! k = tree w !! k
          ∨ (tree w !! k = None ∧ tree (snd run) !! k = Some Dir))
  ∧ (∀ folder, fst run = inr folder →
       folder = base_path self </> strftime_Ymd (clock w (ticks w)) </> session_id
       ∧ Posix.path_is_dir (snd run) folder = true).
Proof.
  intros run. destruct (create_session_folder self session_id w) as [r w'] eqn:Hrun.
  subst run. cbn [fst snd].
  destruct (OpFacts.create_session_folder_run self session_id w r w' Hrun)
    as [(Hcwd & _ & Hticks & Htree) Hok].
  split; [done |]. split; [done |]. split; [done |].
  intros folder ->. exact (Hok folder eq_refl).
Qed.

(** X4: [create_session_folder] is idempotent: if the folder of today's date
    and this session already is a directory, the call returns it and leaves
    the tree as it was (only the clock has been read). *)
Theorem create_session_folder_existing (self : LocalVideoStorage)
    (session_id : string) (w : world) :
  let folder := base_path self </> strftime_Ymd (clock w (ticks w)) </> session_id in
  Posix.path_is_dir w folder = true →
  create_session_folder self session_id w = (inr folder, tick w).
Proof.
  intros folder Hdir. unfold create_session_folder, bind, now.
  fold folder. by rewrite (FolderFacts.mkdir_parents_existing folder (tick w)).
Qed.

Lemma create_session_folder_existing_witness :
  Posix.path_is_dir (snd Sample.saved) (Sample.root </> "2024-06-01" </> "sess-A") = true
  ∧ create_session_folder Sample.store "sess-A" (snd Sample.saved)
    = (inr (Sample.root </> "2024-06-01" </> "sess-A"), tick (snd Sample.saved)).
Proof.
  split.
  - vm_compute. reflexivity.
  - apply (create_session_folder_existing Sample.store "sess-A" (snd Sample.saved)).
    vm_compute. reflexivity.
Defined.

(** ** What one [save_video] call can change *)

Module FrameFacts.
Import Posix PosixFacts OpFacts.

Lemma or_raise_inv {A} (o : option A) e w r w' :
  or_raise o e w = (r, w') →
  w' = w ∧ ((o = None ∧ r = inl e) ∨ (∃ a, o = Some a ∧ r = inr a)).
Proof.
  destruct o as [a |]; cbn; intros [= <- <-]; split; eauto.
Qed.

Lemma save_video_world self data sid qn text w :
  snd (save_video self data sid qn text w)
  = snd (save_video_try self data sid qn text w).
Proof.
  unfold save_video, try_except.
  by destruct (save_video_try self data sid qn text w) as [[e | r] w'].
Qed.

(** The stages a call can stop at: after the folder, after the video, after
    the metadata. *)
Lemma save_video_try_effects self data sid qn text w r w' :
  save_video_try self data sid qn text w = (r, w') →
  let folder := base_path self </> strftime_Ymd (clock w (ticks w)) </> sid in
  let file_path := folder </> video_name qn (strftime_HMS (clock w (S (ticks w)))) in
  let metadata_path := folder </> metadata_name qn in
  cwd w' = cwd w
  ∧ ∃ w1,
      grows (tick w) w1
      ∧ (tree w' = tree w1
         ∨ ∃ kv,
             resolve w1 file_path = inr kv
             ∧ node_at (tree w1) kv ≠ Some Dir
             ∧ (tree w' = <[kv := File data]> (tree w1)
                ∨ ∃ km md,
                    resolve (with_tree w1 (<[kv := File data]> (tree w1))) metadata_path
                    = inr km
                    ∧ node_at (<[kv := File data]> (tree w1)) km ≠ Some Dir
                    ∧ md_file_size md = length data
                    ∧ tree w' = <[km := File (metadata_json md)]>
                                  (<[kv := File data]> (tree w1)))).
Proof.
  intros Htry folder file_path metadata_path.
  unfold save_video_try in Htry.
  apply bind_inv in Htry as [(e & Hmk & ->) | (folder' & w1 & Hmk & Htry)].
  { apply create_session_folder_run in Hmk as [Hgrow _].
    pose proof Hgrow as (Hcwd & _). split; [done |]. exists w'. split; [done | by left]. }
  apply create_session_folder_run in Hmk as [Hgrow Hfolder].
  destruct (Hfolder folder' eq_refl) as [-> _]. fold folder in Htry.
  pose proof Hgrow as (Hcwd1 & Hclock1 & Hticks1 & _).
  cbn [tick cwd clock ticks] in Hcwd1, Hclock1, Hticks1.
  unfold bind at 1, now in Htry. rewrite Hclock1, Hticks1 in Htry.
  fold file_path in Htry.
  apply bind_inv in Htry as [(e & Hwrite & ->) | ([] & w2 & Hwrite & Htry)].
  { apply write_bytes_err in Hwrite as ->. split; [done |].
    exists w1. split; [done | by left]. }
  apply write_bytes_ok in Hwrite as (kv & Hkv & Hkvnode & ->).
  change (resolve (tick w1) ?p) with (resolve w1 p) in Hkv.
  cbn [tree tick] in Hkvnode.
  apply bind_inv in Htry as [(e & Hint & ->) | (n & w3 & Hint & Htry)].
  { apply or_raise_inv in Hint as [-> _]. split; [done |].
    exists w1. split; [done |]. right. exists kv. repeat split; try done. by left. }
  apply or_raise_inv in Hint as [-> _].
  unfold bind at 1, now in Htry.
  apply bind_inv in Htry as [(e & Hrel & ->) | (rel & w4 & Hrel & Htry)].
  { apply or_raise_inv in Hrel as [-> _]. split; [done |].
    exists w1. split; [done |]. right. exists kv. repeat split; try done. by left. }
  apply or_raise_inv in Hrel as [-> [[? ?] | (rel' & Hrelto & [= <-])]]; [done |].
  fold metadata_path in Htry.
  apply bind_inv in Htry as [(e & Hwrite2 & ->) | ([] & w5 & Hwrite2 & Htry)].
  { apply write_bytes_err in Hwrite2 as ->. split; [done |].
    exists w1. split; [done |]. right. exists kv. repeat split; try done. by left. }
  apply write_bytes_ok in Hwrite2 as (km & Hkm & Hkmnode & ->).
  cbn [tree with_tree tick] in Hkmnode.
  apply bind_inv in Htry as [(e & Hrel2 & ->) | (rel2 & w6 & Hrel2 & Htry)].
  { apply or_raise_inv in Hrel2 as [_ [[Hnone _] | (? & ? & ?)]]; [congruence | done]. }
  apply or_raise_inv in Hrel2 as [-> _].
  unfold ret in Htry. injection Htry as _ <-.
  split; [done |]. exists w1. split; [done |]. right. exists kv.
  split; [done |]. split; [done |]. right.
  eexists km, _. split; [exact Hkm |]. split; [done |]. split; [| reflexivity].
  reflexivity.
Qed.

(** Every entry that differs after the call is a new directory, the video
    at the call's video path or the metadata at its metadata path. *)
Lemma save_video_frame self data sid qn text w :
  let w' := snd (save_video self data sid qn text w) in
  let folder := base_path self </> strftime_Ymd (clock w (ticks w)) </> sid in
  let file_path := folder </> video_name qn (strftime_HMS (clock w (S (ticks w)))) in
  let metadata_path := folder </> metadata_name qn in
  ∀ k,
    tree w' !! k = tree w !! k
    ∨ (tree w !! k = None ∧ tree w' !! k = Some Dir)
    ∨ (resolve w' file_path = inr k ∧ tree w' !! k = Some (File data))
    ∨ (resolve w' metadata_path = inr k
       ∧ ∃ md, md_file_size md = length data
               ∧ tree w' !! k = Some (File (metadata_json md))).
Proof.
  intros w' folder file_path metadata_path k. subst w'.
  rewrite save_video_world.
  destruct (save_video_try self data sid qn text w) as [r w'] eqn:Htry.
  cbn [snd].
  destruct (save_video_try_effects _ _ _ _ _ _ _ _ Htry) as (Hcwd & w1 & Hgrow & Hcases).
  fold folder file_path metadata_path in Hcases.
  pose proof Hgrow as (Hcwd1 & _ & _ & Hnew). cbn [tick cwd tree] in Hcwd1, Hnew.
  assert (∀ k', tree w1 !! k' = tree w !! k'
                ∨ (tree w !! k' = None ∧ tree w1 !! k' = Some Dir)) as Hold by done.
  destruct Hcases as [Htree | (kv & Hkv & Hkvnode & Hcases)].
  { rewrite Htree. destruct (Hold k) as [-> | ?]; auto. }
  pose proof (node_at_not_root _ _ Hkvnode) as Hkvroot.
  assert (resolve (with_tree w1 (<[kv := File data]> (tree w1))) file_path = inr kv)
    as Hkv2.
  { apply (resolve_kept w1); [done | by apply dirs_kept_insert_file | done]. }
  destruct Hcases as [Htree | (km & md & Hkm & Hkmnode & Hsize & Htree)].
  - destruct (decide (k = kv)) as [-> | Hne].
    + right. right. left. split.
      * apply (resolve_kept (with_tree w1 (<[kv := File data]> (tree w1))));
          [cbn; congruence | cbn; rewrite Htree; apply dirs_kept_refl | done].
      * by rewrite Htree, lookup_insert_eq.
    + rewrite Htree, lookup_insert_ne by done. destruct (Hold k) as [-> | ?]; auto.
  - pose proof (node_at_not_root _ _ Hkmnode) as Hkmroot.
    assert (dirs_kept (<[kv := File data]> (tree w1)) (tree w')) as Hkept.
    { rewrite Htree. by apply dirs_kept_insert_file. }
    destruct (decide (k = km)) as [-> | Hnem].
    + right. right. right. split.
      * apply (resolve_kept (with_tree w1 (<[kv := File data]> (tree w1))));
          [cbn; congruence | done | done].
      * exists md. split; [done |]. by rewrite Htree, lookup_insert_eq.
    + destruct (decide (k = kv)) as [-> | Hne].
      * right. right. left. split.
        -- apply (resolve_kept (with_tree w1 (<[kv := File data]> (tree w1))));
             [cbn; congruence | done | done].
        -- by rewrite Htree, lookup_insert_ne, lookup_insert_eq.
      * rewrite Htree, !lookup_insert_ne by done. destruct (Hold k) as [-> | ?]; auto.
Qed.

End FrameFacts.

(** X5: what one call of [save_video] can change, on every input and whether
    it succeeds or not: an entry of the tree that differs afterwards is a
    directory that did not exist, or the file at the call's video path, now
    holding the input bytes, or the file at its metadata path, now holding a
    metadata text whose [file_size] is the input's length.  So no entry is
    removed, and no file other than those two is written. *)
Theorem save_video_changes_two_files_at_most (self : LocalVideoStorage)
    (video_data : list Byte.byte) (session_id : string) (question_number : pyval)
    (question_text : string) (w : world) (k : list string) :
  let w' := snd (save_video self video_data session_id question_number question_text w) in
  let folder := base_path self </> strftime_Ymd (clock w (ticks w)) </> session_id in
  let file_path :=
    folder </> video_name question_number (strftime_HMS (clock w (S (ticks w)))) in
  let metadata_path := folder </> metadata_name question_number in
  tree w' !! k = tree w !! k
  ∨ (tree w !! k = None ∧ tree w' !! k = Some Dir)
  ∨ (Posix.resolve w' file_path = inr k ∧ tree w' !! k = Some (File video_data))
  ∨ (Posix.resolve w' metadata_path = inr k
     ∧ ∃ md, md_file_size md = length video_data
             ∧ tree w' !! k = Some (File (metadata_json md))).
Proof. apply FrameFacts.save_video_frame. Qed.

(** ** A question number that is not a number *)

Module NumberFacts.
Import Posix PosixFacts OpFacts NameFacts SaveFacts.


Lemma path_is_dir_inv w p :
  path_is_dir w p = true → ∃ k, resolve w p = inr k ∧ node_at (tree w) k = Some Dir.
Proof.
  unfold path_is_dir, is_dir_at. destruct (resolve w p) as [en | k]; [done |].
  destruct (node_at (tree w) k) as [[] |] eqn:Hk; [done | | done]. by exists k.
Qed.


End NumberFacts.





(** ** Calls that only read *)

Module ReadFacts.
Import Posix PosixFacts OpFacts.

(** A computation that leaves the world as it found it, whatever it returns
    or raises. *)
Definition read_only {A} (m : M A) : Prop := ∀ w r w', m w = (r, w') → w' = w.

Lemma read_only_ret {A} (a : A) : read_only (ret a).
Proof. by intros w r w' [= _ <-]. Qed.

Lemma read_only_raise {A} e : read_only (@raise A e).
Proof. by intros w r w' [= _ <-]. Qed.

Lemma read_only_bind {A B} (m : M A) (f : A -> M B) :
  read_only m → (∀ a, read_only (f a)) → read_only (bind m f).
Proof.
  intros Hm Hf w r w' Hrun.
  apply bind_inv in Hrun as [(e & Hrun & _) | (a & w1 & Hrun & Hrest)].
  - by apply Hm in Hrun.
  - apply Hm in Hrun as ->. by apply Hf in Hrest.
Qed.

Lemma read_only_try_except {A} (m : M A) (h : exn -> M A) :
  read_only m → (∀ e, read_only (h e)) → read_only (try_except m h).
Proof.
  intros Hm Hh w r w'. unfold try_except.
  destruct (m w) as [[e | a] w1] eqn:Hrun; apply Hm in Hrun as ->.
  - apply Hh.
  - by intros [= _ <-].
Qed.

Lemma read_only_for_each {A S} (l : list A) (body : A -> S -> M S) :
  (∀ x acc, read_only (body x acc)) → ∀ acc, read_only (for_each l body acc).
Proof.
  intros Hbody. induction l as [| x l IH]; intros acc; cbn [for_each].
  - apply read_only_ret.
  - apply read_only_bind; [apply Hbody | apply IH].
Qed.

Lemma read_only_if {A} (b : bool) (m1 m2 : M A) :
  read_only m1 → read_only m2 → read_only (if b then m1 else m2).
Proof. by destruct b. Qed.

Lemma read_only_exists p : read_only (Path.exists_ p).
Proof. by intros w r w' [= _ <-]. Qed.

Lemma read_only_is_dir p : read_only (Path.is_dir p).
Proof. by intros w r w' [= _ <-]. Qed.

Lemma read_only_listdir p : read_only (Path.listdir p).
Proof.
  intros w r w'. unfold Path.listdir.
  destruct (resolve w p) as [en | k]; [by intros [= _ <-] |].
  by destruct (node_at (tree w) k) as [[] |]; intros [= _ <-].
Qed.

Lemma read_only_iterdir p : read_only (Path.iterdir p).
Proof.
  apply read_only_bind; [apply read_only_listdir | intros; apply read_only_ret].
Qed.

Lemma read_only_glob p suffix : read_only (Path.glob_suffix p suffix).
Proof.
  apply read_only_bind; [apply read_only_is_dir |]. intros d.
  apply read_only_if; [| apply read_only_ret].
  apply read_only_bind; [apply read_only_listdir | intros; apply read_only_ret].
Qed.

Lemma read_only_stat p : read_only (Path.stat_size p).
Proof.
  intros w r w'. unfold Path.stat_size.
  destruct (resolve w p) as [en | k]; [by intros [= _ <-] |].
  by destruct (node_at (tree w) k) as [[] |]; intros [= _ <-].
Qed.

Lemma read_only_relative_to p base : read_only (Path.relative_to p base).
Proof.
  unfold Path.relative_to, or_raise.
  destruct (PurePath.relative_to p base); [apply read_only_ret | apply read_only_raise].
Qed.

Lemma read_only_videos_info files : read_only (videos_info files).
Proof.
  apply read_only_for_each. intros x acc.
  apply read_only_bind; [apply read_only_stat | intros; apply read_only_ret].
Qed.

(** [get_session_info] reads the clock once and changes nothing else. *)
Lemma get_session_info_world self sid w :
  snd (get_session_info self sid w) = tick w.
Proof.
  destruct (get_session_info self sid w) as [r w'] eqn:Hrun. cbn [snd].
  unfold get_session_info, get_session_info_try in Hrun.
  unfold try_except, bind at 1, now in Hrun.
  match type of Hrun with
  | context [bind ?m ?f (tick w)] =>
      assert (read_only (bind m f)) as Hro
  end.
  { apply read_only_bind; [apply read_only_exists |]. intros found.
    apply read_only_if; [apply read_only_ret |].
    apply read_only_bind; [apply read_only_glob |]. intros video_files.
    apply read_only_bind; [apply read_only_glob |]. intros metadata_files.
    apply read_only_bind; [apply read_only_videos_info |]. intros videos.
    apply read_only_bind; [apply read_only_relative_to |]. intros rel.
    apply read_only_ret. }
  match type of Hrun with
  | context [bind ?m ?f (tick w)] =>
      destruct (bind m f (tick w)) as [[e | r0] w0] eqn:Hbody
  end; apply Hro in Hbody as ->; unfold ret in Hrun; by injection Hrun as _ <-.
Qed.

End ReadFacts.

(** X8: [get_session_info] never changes the file tree: on every input, and
    whether it succeeds, fails or catches an exception, the world it leaves
    is the one it found with one more clock reading taken. *)
Theorem get_session_info_only_reads (self : LocalVideoStorage) (session_id : string)
    (w : world) :
  snd (get_session_info self session_id w) = tick w.
Proof. apply ReadFacts.get_session_info_world. Qed.

(** ** What [get_session_info] reports *)

Module SessionFacts.
Import Posix PosixFacts OpFacts.

(** [st_size] of the entry [name] of the directory at [k]. *)
Definition entry_size (t : gmap (list string) node) (k : list string) (name : string)
  : nat :=
  match t !! (k ++ [name]) with
  | Some (File d) => length d
  | Some Dir => dir_st_size
  | None => 0
  end.

Lemma strip_prefix_app_l pre l : PurePath.strip_prefix pre (pre ++ l) = Some l.
Proof.
  induction pre as [| x pre IH]; [done |]. cbn. by rewrite String.eqb_refl.
Qed.

Lemma entry_name_Some k k' name : entry_name k k' = Some name ↔ k' = k ++ [name].
Proof.
  unfold entry_name. split.
  - destruct (PurePath.strip_prefix k k') as [[| n [| ? ?]] |] eqn:Hstrip; try done.
    intros [= ->]. by apply PathFacts.strip_prefix_app in Hstrip.
  - intros ->. by rewrite strip_prefix_app_l.
Qed.

(** The listing of a directory names exactly its entries, each once. *)
Lemma elem_of_entries (t : gmap (list string) node) k name :
  name ∈ entries t k ↔ is_Some (t !! (k ++ [name])).
Proof.
  unfold entries. rewrite list_elem_of_omap. split.
  - intros ([k' n] & Hin & Hname). apply elem_of_map_to_list in Hin.
    apply entry_name_Some in Hname. cbn in Hname. subst k'. by exists n.
  - intros [n Hn]. exists (k ++ [name], n). split.
    + by apply elem_of_map_to_list.
    + by apply entry_name_Some.
Qed.

Lemma NoDup_omap_inj {A B} (f : A -> option B) (l : list A) :
  NoDup l →
  (∀ x y z, x ∈ l → y ∈ l → f x = Some z → f y = Some z → x = y) →
  NoDup (omap f l).
Proof.
  induction 1 as [| x l Hx Hl IH]; intros Hinj; [constructor |]. cbn.
  assert (NoDup (omap f l)) as Hrest.
  { apply IH. intros a b z Ha Hb. apply Hinj; by constructor. }
  destruct (f x) as [z |] eqn:Hfx; [| done].
  constructor; [| done].
  intros (y & Hy & Hfy)%list_elem_of_omap.
  assert (x = y) as -> by (apply (Hinj x y z); [constructor | by constructor | done..]).
  done.
Qed.

Lemma NoDup_entries (t : gmap (list string) node) k : NoDup (entries t k).
Proof.
  unfold entries. apply NoDup_omap_inj; [apply NoDup_map_to_list |].
  intros [k1 n1] [k2 n2] name H1 H2 Hn1 Hn2.
  apply entry_name_Some in Hn1, Hn2. cbn in Hn1, Hn2. subst k1 k2.
  apply elem_of_map_to_list in H1, H2. congruence.
Qed.

Lemma webm_proper name : Str.ends_with ".webm" name = true → proper_name name.
Proof. intros Hname. repeat split; by intros ->. Qed.

Lemma name_child p name : PurePath.name (PurePath.child p name) = name.
Proof. unfold PurePath.name, PurePath.child. cbn [parts]. apply last_last. Qed.

Lemma listdir_dir p w k :
  resolve w p = inr k → node_at (tree w) k = Some Dir →
  Path.listdir p w = (inr (entries (tree w) k), w).
Proof. intros Hres Hk. unfold Path.listdir. by rewrite Hres, Hk. Qed.

Lemma glob_dir p suffix w k :
  resolve w p = inr k → node_at (tree w) k = Some Dir →
  Path.glob_suffix p suffix w
  = (inr (map (PurePath.child p) (List.filter (Str.ends_with suffix) (entries (tree w) k))),
     w).
Proof.
  intros Hres Hk. unfold Path.glob_suffix, bind, Path.is_dir, path_is_dir, is_dir_at.
  rewrite Hres, Hk. by rewrite (listdir_dir p w k).
Qed.

Lemma glob_not_dir p suffix w :
  path_is_dir w p = false → Path.glob_suffix p suffix w = (inr [], w).
Proof. intros Hdir. unfold Path.glob_suffix, bind, Path.is_dir. by rewrite Hdir. Qed.

Lemma stat_child p w k name :
  resolve w p = inr k → node_at (tree w) k = Some Dir → proper_name name →
  is_Some (tree w !! (k ++ [name])) →
  Path.stat_size (PurePath.child p name) w = (inr (entry_size (tree w) k name), w).
Proof.
  intros Hres Hk Hname [n Hn]. unfold Path.stat_size, entry_size.
  rewrite (resolve_child w p name k) by done.
  rewrite node_at_lookup by (by destruct k). rewrite Hn. by destruct n.
Qed.

Lemma videos_loop p w k names acc :
  resolve w p = inr k → node_at (tree w) k = Some Dir →
  Forall (fun name => proper_name name ∧ is_Some (tree w !! (k ++ [name]))) names →
  for_each (map (PurePath.child p) names)
    (fun video_file acc =>
       size <- Path.stat_size video_file ;;
       ret (acc ++ [mk_file_info (PurePath.name video_file) size]))
    acc w
  = (inr (acc ++ map (fun name => mk_file_info name (entry_size (tree w) k name)) names),
     w).
Proof.
  intros Hres Hk Hall. revert acc.
  induction Hall as [| name names [Hname Hin] _ IH]; intros acc; cbn [map for_each].
  - unfold ret. by rewrite app_nil_r.
  - unfold bind at 1. unfold bind at 1.
    rewrite (stat_child p w k name) by done. unfold ret at 1.
    rewrite IH, name_child. by rewrite <- app_assoc.
Qed.

(** The video names of the directory at [k]: entries ending in [.webm]. *)
Definition video_names (t : gmap (list string) node) (k : list string) : list string :=
  List.filter (Str.ends_with ".webm") (entries t k).

Lemma elem_of_video_names (t : gmap (list string) node) k name :
  name ∈ video_names t k
  ↔ Str.ends_with ".webm" name = true ∧ is_Some (t !! (k ++ [name])).
Proof.
  unfold video_names. rewrite list_elem_of_In, filter_In, <- list_elem_of_In.
  rewrite elem_of_entries. tauto.
Qed.

Lemma NoDup_video_names (t : gmap (list string) node) k : NoDup (video_names t k).
Proof.
  unfold video_names. apply NoDup_ListNoDup, List.NoDup_filter, NoDup_ListNoDup.
  apply NoDup_entries.
Qed.

Lemma videos_info_dir p w k :
  resolve w p = inr k → node_at (tree w) k = Some Dir →
  videos_info (map (PurePath.child p) (video_names (tree w) k)) w
  = (inr (map (fun name => mk_file_info name (entry_size (tree w) k name))
            (video_names (tree w) k)), w).
Proof.
  intros Hres Hk. unfold videos_info.
  rewrite (videos_loop p w k _ []); [done.. |].
  apply Forall_forall. intros name [Hwebm Hin]%elem_of_video_names.
  split; [by apply webm_proper | done].
Qed.

(** The whole answer for a session folder that is a directory. *)
Lemma get_session_info_dir self sid w kf :
  let folder := base_path self </> strftime_Ymd (clock w (ticks w)) </> sid in
  resolve w folder = inr kf → node_at (tree w) kf = Some Dir →
  get_session_info self sid w
  = (inr match PurePath.relative_to folder (base_path self) with
         | Some rel =>
             SessionOk sid (length (video_names (tree w) kf)) (PurePath.to_str rel)
               (map (fun name => mk_file_info name (entry_size (tree w) kf name))
                  (video_names (tree w) kf))
         | None => SessionFailed (StrExn (ValueError_relative_to folder (base_path self)))
         end, tick w).
Proof.
  intros folder Hres Hk.
  unfold get_session_info, try_except, get_session_info_try.
  unfold bind at 1, now. fold folder.
  unfold bind at 1, Path.exists_, path_exists.
  change (resolve (tick w) ?p) with (resolve w p).
  change (tree (tick w)) with (tree w).
  rewrite Hres, Hk. cbn [negb].
  unfold bind at 1. rewrite (glob_dir folder ".webm" (tick w) kf) by done.
  unfold bind at 1. rewrite (glob_dir folder "_metadata.json" (tick w) kf) by done.
  change (tree (tick w)) with (tree w). fold (video_names (tree w) kf).
  unfold bind at 1.
  pose proof (videos_info_dir folder (tick w) kf Hres Hk) as Hvideos.
  change (tree (tick w)) with (tree w) in Hvideos. rewrite Hvideos.
  unfold bind, Path.relative_to, or_raise.
  destruct (PurePath.relative_to folder (base_path self)) as [rel |]; cbn.
  - by rewrite length_map.
  - reflexivity.
Qed.

(** The answer for a session "folder" that is a regular file. *)
Lemma get_session_info_file self sid w kf d :
  let folder := base_path self </> strftime_Ymd (clock w (ticks w)) </> sid in
  resolve w folder = inr kf → node_at (tree w) kf = Some (File d) →
  get_session_info self sid w
  = (inr match PurePath.relative_to folder (base_path self) with
         | Some rel => SessionOk sid 0 (PurePath.to_str rel) []
         | None => SessionFailed (StrExn (ValueError_relative_to folder (base_path self)))
         end, tick w).
Proof.
  intros folder Hres Hk.
  assert (path_is_dir (tick w) folder = false) as Hnodir.
  { unfold path_is_dir, is_dir_at. change (resolve (tick w) ?p) with (resolve w p).
    change (tree (tick w)) with (tree w). by rewrite Hres, Hk. }
  unfold get_session_info, try_except, get_session_info_try.
  unfold bind at 1, now. fold folder.
  unfold bind at 1, Path.exists_, path_exists.
  change (resolve (tick w) ?p) with (resolve w p).
  change (tree (tick w)) with (tree w).
  rewrite Hres, Hk. cbn [negb].
  unfold bind at 1. rewrite (glob_not_dir folder ".webm" (tick w)) by done.
  unfold bind at 1. rewrite (glob_not_dir folder "_metadata.json" (tick w)) by done.
  unfold bind, videos_info, Path.relative_to, or_raise. cbn [for_each ret].
  by destruct (PurePath.relative_to folder (base_path self)) as [rel |].
Qed.

End SessionFacts.

(** X9: what [get_session_info] answers for a session folder that is a
    directory below the storage root: success, with [total_questions] the
    number of entries of that directory whose name ends in [.webm], the
    folder's path relative to the root, and one record per such entry, in
    listing order, giving its name and its size.  Those entries are listed
    once each, whether they are files or directories. *)
Theorem get_session_info_lists_videos (self : LocalVideoStorage) (session_id : string)
    (w : world) (kf : list string) (rel : ppath) :
  let folder := base_path self </> strftime_Ymd (clock w (ticks w)) </> session_id in
  Posix.resolve w folder = inr kf →
  Posix.node_at (tree w) kf = Some Dir →
  PurePath.relative_to folder (base_path self) = Some rel →
  let names := SessionFacts.video_names (tree w) kf in
  get_session_info self session_id w
  = (inr (SessionOk session_id (length names) (PurePath.to_str rel)
            (map (fun name => mk_file_info name (SessionFacts.entry_size (tree w) kf name))
               names)),
     tick w)
  ∧ NoDup names
  ∧ ∀ name,
      name ∈ names
      ↔ Str.ends_with ".webm" name = true ∧ is_Some (tree w !! (kf ++ [name])).
Proof.
  intros folder Hres Hdir Hrel names. split; [| split].
  - rewrite (SessionFacts.get_session_info_dir self session_id w kf Hres Hdir).
    fold folder. by rewrite Hrel.
  - apply SessionFacts.NoDup_video_names.
  - intros name. apply SessionFacts.elem_of_video_names.
Qed.

Lemma get_session_info_lists_videos_witness :
  let w := snd Sample.second_save in
  get_session_info Sample.store "sess-A" w
  = (inr (SessionOk "sess-A" 2 "2024-06-01/sess-A"
            [mk_file_info "question_3_14-05-11.webm" 3;
             mk_file_info "question_3_14-05-10.webm" 2]),
     tick w).
Proof.
  intros w.
  destruct (get_session_info_lists_videos Sample.store "sess-A" w Sample.session_key
              (mk_ppath "" ["2024-06-01"; "sess-A"])) as (Hrun & _ & _).
  - vm_compute. reflexivity.
  - vm_compute. reflexivity.
  - vm_compute. reflexivity.
  - rewrite Hrun. apply (f_equal (fun r => (r, tick w))). vm_compute. reflexivity.
Defined.

(** X10: a session folder that exists but does not lie below the storage
    root (an absolute [session_id], say) is not reported as "not found":
    [get_session_info] then returns the failure that holds the [ValueError] of
    [relative_to]. *)
Theorem get_session_info_outside_root (self : LocalVideoStorage) (session_id : string)
    (w : world) :
  let folder := base_path self </> strftime_Ymd (clock w (ticks w)) </> session_id in
  Posix.path_exists w folder = true →
  PurePath.relative_to folder (base_path self) = None →
  get_session_info self session_id w
  = (inr (SessionFailed (StrExn (ValueError_relative_to folder (base_path self)))),
     tick w).
Proof.
  intros folder Hexists Hrel. unfold Posix.path_exists in Hexists.
  destruct (Posix.resolve w folder) as [en | kf] eqn:Hres; [done |].
  destruct (Posix.node_at (tree w) kf) as [[d |] |] eqn:Hk; [| | done].
  - rewrite (SessionFacts.get_session_info_file self session_id w kf d Hres Hk).
    fold folder. by rewrite Hrel.
  - rewrite (SessionFacts.get_session_info_dir self session_id w kf Hres Hk).
    fold folder. by rewrite Hrel.
Qed.

Lemma get_session_info_outside_root_witness :
  let w := snd Sample.saved in
  get_session_info Sample.store "/srv" w
  = (inr (SessionFailed
            (StrExn (ValueError_relative_to (PurePath.parse "/srv") Sample.root))),
     tick w).
Proof.
  intros w.
  apply (get_session_info_outside_root Sample.store "/srv" w).
  - vm_compute. reflexivity.
  - vm_compute. reflexivity.
Defined.

(** X11: a regular file in the place of the session folder is reported as a
    session without videos: if [<root>/<today>/<session_id>] names a file and
    lies below the root, [get_session_info] succeeds with [total_questions]
    0 and an empty video list. *)
Theorem get_session_info_regular_file (self : LocalVideoStorage) (session_id : string)
    (w : world) (d : list Byte.byte) (rel : ppath) :
  let folder := base_path self </> strftime_Ymd (clock w (ticks w)) </> session_id in
  Posix.read_file w folder = Some d →
  PurePath.relative_to folder (base_path self) = Some rel →
  get_session_info self session_id w
  = (inr (SessionOk session_id 0 (PurePath.to_str rel) []), tick w).
Proof.
  intros folder Hfile Hrel. unfold Posix.read_file in Hfile.
  destruct (Posix.resolve w folder) as [en | kf] eqn:Hres; [done |].
  destruct (Posix.node_at (tree w) kf) as [[d' |] |] eqn:Hk; [| done | done].
  rewrite (SessionFacts.get_session_info_file self session_id w kf d' Hres Hk).
  fold folder. by rewrite Hrel.
Qed.

Lemma get_session_info_regular_file_witness :
  let w := snd Sample.saved in
  get_session_info Sample.store "sess-A/question_3_14-05-10.webm" w
  = (inr (SessionOk "sess-A/question_3_14-05-10.webm" 0
            "2024-06-01/sess-A/question_3_14-05-10.webm" []),
     tick w).
Proof.
  intros w.
  apply (get_session_info_regular_file Sample.store "sess-A/question_3_14-05-10.webm" w
           Sample.two_bytes
           (mk_ppath "" ["2024-06-01"; "sess-A"; "question_3_14-05-10.webm"])).
  - vm_compute. reflexivity.
  - vm_compute. reflexivity.
Defined.

(** ** A saved video shows up in the session's listing *)

Module ListedFacts.
Import Posix PosixFacts OpFacts StrFacts.

(** A run is its result paired with the world it leaves. *)
Lemma run_eq {A} (run : (exn + A) * world) (r : exn + A) :
  fst run = r → run = (r, snd run).
Proof. destruct run. cbn. congruence. Qed.








End ListedFacts.



(** ** The handlers on top of the store *)

Module HandlerFacts.
Import Posix PosixFacts OpFacts.

Lemma get_session_info_returns self sid w :
  ∃ r, get_session_info self sid w = (inr r, tick w).
Proof.
  pose proof (ReadFacts.get_session_info_world self sid w) as Hworld.
  unfold get_session_info in *.
  destruct (try_except_returns (get_session_info_try self sid)
              (fun e => SessionFailed (StrExn e)) w) as (r & w' & Hrun & _).
  rewrite Hrun in Hworld. cbn in Hworld. subst w'. by exists r.
Qed.



End HandlerFacts.

(** X13: the [session_info] handler answers 200 with the session record when
    [get_session_info] succeeds and 404 with its error otherwise; its own
    [except] branch (status 500) is never taken, and the tree is left as it
    was. *)
Theorem session_info_answers_200_or_404 (BASE_DIR : ppath) (session_id : string)
    (w : world) :
  ∃ result,
    get_session_info (storage BASE_DIR) session_id w = (inr result, tick w)
    ∧ session_info BASE_DIR session_id w
      = (inr match result with
             | SessionOk sid total folder videos =>
                 mk_response 200 (SessionBody sid total folder videos)
             | SessionFailed error => mk_response 404 (ErrorBody error)
             end, tick w).
Proof.
  destruct (HandlerFacts.get_session_info_returns (storage BASE_DIR) session_id w)
    as (result & Hrun).
  exists result. split; [done |].
  unfold session_info, try_except, bind. rewrite Hrun. by destruct result.
Qed.




(** ** Listing the sessions *)

Module ListFacts.
Import Posix PosixFacts OpFacts.

(** The names [os.listdir] gives for [p], none if [p] is not a directory. *)
Definition listing (w : world) (p : ppath) : list string :=
  match resolve w p with
  | inr k => if is_dir_at (tree w) k then entries (tree w) k else []
  | inl _ => []
  end.

(** The entry [list_sessions] builds for the session folder [s] of the date
    folder [d]. *)
Definition session_row (w : world) (V : ppath) (d s : string) : session_entry :=
  mk_entry s d
    (length (List.filter (Str.ends_with ".webm")
               (listing w (PurePath.child (PurePath.child V d) s))))
    (PurePath.to_str (mk_ppath "" [d; s])).

Definition subdirs (w : world) (p : ppath) : list string :=
  List.filter (fun name => path_is_dir w (PurePath.child p name)) (listing w p).

(** The entries in the order the two loops meet them: date folders in listing
    order, and within each its session folders in listing order. *)
Definition scanned (w : world) (V : ppath) : list session_entry :=
  flat_map (fun d => map (session_row w V d) (subdirs w (PurePath.child V d)))
    (subdirs w V).

Lemma ret_run {A} (a : A) w : ret a w = (inr a, w).
Proof. reflexivity. Qed.

Lemma listing_dir w p k :
  resolve w p = inr k → node_at (tree w) k = Some Dir → listing w p = entries (tree w) k.
Proof. intros Hres Hk. unfold listing, is_dir_at. by rewrite Hres, Hk. Qed.

Lemma iterdir_dir p w :
  path_is_dir w p = true →
  Path.iterdir p w = (inr (map (PurePath.child p) (listing w p)), w).
Proof.
  intros (k & Hres & Hk)%NumberFacts.path_is_dir_inv.
  unfold Path.iterdir, bind. rewrite (SessionFacts.listdir_dir p w k) by done.
  by rewrite (listing_dir w p k).
Qed.

Lemma glob_listing p suffix w :
  path_is_dir w p = true →
  Path.glob_suffix p suffix w
  = (inr (map (PurePath.child p) (List.filter (Str.ends_with suffix) (listing w p))), w).
Proof.
  intros (k & Hres & Hk)%NumberFacts.path_is_dir_inv.
  rewrite (SessionFacts.glob_dir p suffix w k) by done.
  by rewrite (listing_dir w p k).
Qed.

Lemma relative_grandchild V d s :
  PurePath.relative_to (PurePath.child (PurePath.child V d) s) V
  = Some (mk_ppath "" [d; s]).
Proof.
  unfold PurePath.relative_to, PurePath.child. cbn [proot parts].
  rewrite String.eqb_refl, <- app_assoc. cbn [app].
  by rewrite SessionFacts.strip_prefix_app_l.
Qed.

(** The inner loop over the entries of one date folder. *)
Lemma session_loop BASE_DIR w d names acc :
  let V := VIDEOS_DIR BASE_DIR in
  let date_folder := PurePath.child V d in
  for_each (map (PurePath.child date_folder) names)
    (fun session_folder sessions =>
       d' <- Path.is_dir session_folder ;;
       if d' then
         videos <- Path.glob_suffix session_folder ".webm" ;;
         let video_count := length videos in
         rel <- Path.relative_to session_folder V ;;
         ret (sessions ++
              [mk_entry (PurePath.name session_folder) (PurePath.name date_folder)
                        video_count (PurePath.to_str rel)])
       else ret sessions)
    acc w
  = (inr (acc ++ map (session_row w V d)
                   (List.filter (fun s => path_is_dir w (PurePath.child date_folder s))
                      names)), w).
Proof.
  intros V date_folder. revert acc.
  induction names as [| s names IH]; intros acc; cbn [map for_each List.filter].
  - unfold ret. by rewrite app_nil_r.
  - unfold bind at 1. unfold bind at 1. unfold Path.is_dir at 1.
    destruct (path_is_dir w (PurePath.child date_folder s)) eqn:Hdir.
    + unfold bind at 1. rewrite glob_listing by done.
      unfold bind at 1, Path.relative_to. subst date_folder.
      rewrite relative_grandchild. cbn [or_raise]. rewrite !ret_run.
      rewrite IH. cbn [map]. rewrite <- app_assoc. cbn [app].
      unfold session_row. by rewrite !SessionFacts.name_child, length_map.
    + rewrite ret_run. by rewrite IH.
Qed.

(** The outer loop over the entries of the root. *)
Lemma date_loop BASE_DIR w dnames acc :
  let V := VIDEOS_DIR BASE_DIR in
  for_each (map (PurePath.child V) dnames)
    (fun date_folder sessions =>
       d <- Path.is_dir date_folder ;;
       if d then
         session_folders <- Path.iterdir date_folder ;;
         for_each session_folders
           (fun session_folder sessions =>
              d' <- Path.is_dir session_folder ;;
              if d' then
                videos <- Path.glob_suffix session_folder ".webm" ;;
                let video_count := length videos in
                rel <- Path.relative_to session_folder V ;;
                ret (sessions ++
                     [mk_entry (PurePath.name session_folder)
                               (PurePath.name date_folder)
                               video_count (PurePath.to_str rel)])
              else ret sessions)
           sessions
       else ret sessions)
    acc w
  = (inr (acc ++ flat_map (fun d => map (session_row w V d) (subdirs w (PurePath.child V d)))
                   (List.filter (fun d => path_is_dir w (PurePath.child V d)) dnames)),
     w).
Proof.
  intros V. revert acc.
  induction dnames as [| d dnames IH]; intros acc; cbn [map for_each List.filter].
  - unfold ret. by rewrite app_nil_r.
  - unfold bind at 1. unfold bind at 1. unfold Path.is_dir at 1.
    destruct (path_is_dir w (PurePath.child V d)) eqn:Hdir.
    + unfold bind at 1. rewrite iterdir_dir by done.
      rewrite (session_loop BASE_DIR w d). rewrite IH.
      cbn [flat_map]. by rewrite <- app_assoc.
    + rewrite ret_run. by rewrite IH.
Qed.

Lemma scan_sessions_dir BASE_DIR w :
  path_is_dir w (VIDEOS_DIR BASE_DIR) = true →
  scan_sessions BASE_DIR w = (inr (scanned w (VIDEOS_DIR BASE_DIR)), w).
Proof.
  intros Hdir. unfold scan_sessions.
  unfold bind at 1, Path.exists_.
  assert (path_exists w (VIDEOS_DIR BASE_DIR) = true) as ->.
  { apply NumberFacts.path_is_dir_inv in Hdir as (k & Hres & Hk).
    unfold path_exists. by rewrite Hres, Hk. }
  unfold bind at 1. rewrite iterdir_dir by done. cbv beta iota.
  apply (date_loop BASE_DIR w (listing w (VIDEOS_DIR BASE_DIR)) []).
Qed.

Lemma scan_sessions_missing BASE_DIR w :
  path_exists w (VIDEOS_DIR BASE_DIR) = false →
  scan_sessions BASE_DIR w = (inr [], w).
Proof. intros Hno. unfold scan_sessions, bind, Path.exists_. by rewrite Hno. Qed.

Lemma scan_sessions_file BASE_DIR w d :
  read_file w (VIDEOS_DIR BASE_DIR) = Some d →
  scan_sessions BASE_DIR w = (inl (NotADirectoryError (VIDEOS_DIR BASE_DIR)), w).
Proof.
  unfold read_file.
  destruct (resolve w (VIDEOS_DIR BASE_DIR)) as [en | k] eqn:Hres; [done |].
  destruct (node_at (tree w) k) as [[d' |] |] eqn:Hk; [| done | done].
  intros _. unfold scan_sessions.
  unfold bind at 1, Path.exists_, path_exists. rewrite Hres, Hk.
  unfold bind at 1, Path.iterdir. unfold bind at 1, Path.listdir.
  by rewrite Hres, Hk.
Qed.

(** *** The sort *)

(** [a] may stand before [b]: its date is not smaller. *)
Definition date_ge (a b : session_entry) : Prop := String.le (se_date b) (se_date a).

Lemma leb_false_ge a b : Str.leb a b = false → String.le b a.
Proof.
  unfold Str.leb, String.le. intros Hab.
  destruct (String.leb_total a b) as [H | H]; [congruence | by rewrite H].
Qed.

Lemma insert_by_date_perm x l : insert_by_date x l ≡ₚ x :: l.
Proof.
  induction l as [| y l IH]; cbn; [done |].
  destruct (Str.leb (se_date y) (se_date x)); [done |].
  rewrite IH. apply Permutation_swap.
Qed.

Lemma sorted_by_date_desc_perm l : sorted_by_date_desc l ≡ₚ l.
Proof.
  induction l as [| x l IH]; cbn; [done |].
  by rewrite insert_by_date_perm, IH.
Qed.

Lemma insert_by_date_sorted x l :
  StronglySorted date_ge l → StronglySorted date_ge (insert_by_date x l).
Proof.
  induction 1 as [| y l Hl IH Hy]; cbn.
  - by repeat constructor.
  - destruct (Str.leb (se_date y) (se_date x)) eqn:Hyx.
    + constructor; [by constructor |].
      assert (date_ge x y) as Hxy by (unfold date_ge, String.le, Str.leb in *; by rewrite Hyx).
      constructor; [done |].
      eapply Forall_impl; [exact Hy |]. intros z Hz. unfold date_ge in *.
      by etrans.
    + constructor; [done |].
      rewrite insert_by_date_perm. constructor; [| done].
      by apply leb_false_ge.
Qed.

Lemma sorted_by_date_desc_sorted l : StronglySorted date_ge (sorted_by_date_desc l).
Proof.
  induction l as [| x l IH]; cbn; [constructor | by apply insert_by_date_sorted].
Qed.

(** The sort is stable: entries of one date keep their order. *)
Lemma insert_by_date_stable date x l :
  List.filter (fun e => String.eqb (se_date e) date) (insert_by_date x l)
  = List.filter (fun e => String.eqb (se_date e) date) (x :: l).
Proof.
  induction l as [| y l IH]; [done |]. cbn [insert_by_date].
  destruct (Str.leb (se_date y) (se_date x)) eqn:Hyx; [done |].
  cbn [List.filter] in *. rewrite IH.
  destruct (String.eqb_spec (se_date y) date) as [Hy |]; [| done].
  destruct (String.eqb_spec (se_date x) date) as [Hx |]; [| done].
  exfalso. unfold Str.leb in Hyx. rewrite Hy, Hx in Hyx.
  assert (String.le date date) as Hrefl by done.
  unfold String.le in Hrefl. by rewrite Hyx in Hrefl.
Qed.

Lemma sorted_by_date_desc_stable date l :
  List.filter (fun e => String.eqb (se_date e) date) (sorted_by_date_desc l)
  = List.filter (fun e => String.eqb (se_date e) date) l.
Proof.
  induction l as [| x l IH]; [done |].
  cbn [sorted_by_date_desc foldr]. rewrite insert_by_date_stable.
  cbn [List.filter]. fold (sorted_by_date_desc l). by rewrite IH.
Qed.

Lemma list_sessions_run BASE_DIR w r w' :
  scan_sessions BASE_DIR w = (r, w') →
  list_sessions BASE_DIR w
  = (inr match r with
         | inr sessions => mk_response 200 (SessionsBody (sorted_by_date_desc sessions))
         | inl e => mk_response 500 (ErrorBody (StrExn e))
         end, w').
Proof.
  intros Hscan. unfold list_sessions, try_except, bind. rewrite Hscan.
  by destruct r.
Qed.

Lemma elem_of_scanned w V e :
  e ∈ scanned w V
  ↔ ∃ d s, d ∈ subdirs w V ∧ s ∈ subdirs w (PurePath.child V d)
           ∧ e = session_row w V d s.
Proof.
  unfold scanned. rewrite list_elem_of_In, in_flat_map. split.
  - intros (d & Hd & He). apply list_elem_of_In, list_elem_of_fmap in He as (s & -> & Hs).
    exists d, s. by rewrite list_elem_of_In.
  - intros (d & s & Hd & Hs & ->). exists d. split; [by apply list_elem_of_In |].
    apply list_elem_of_In, list_elem_of_fmap. by exists s.
Qed.

End ListFacts.

(** X16: [list_sessions] without a usable root.  If [VIDEOS_DIR] names
    nothing the answer is 200 with an empty list; if it names a regular file,
    listing it raises [NotADirectoryError], which the handler turns into
    status 500.  In both cases the world is unchanged. *)
Theorem list_sessions_without_root (BASE_DIR : ppath) (w : world) :
  (Posix.path_exists w (VIDEOS_DIR BASE_DIR) = false →
   list_sessions BASE_DIR w = (inr (mk_response 200 (SessionsBody [])), w))
  ∧ (∀ d, Posix.read_file w (VIDEOS_DIR BASE_DIR) = Some d →
       list_sessions BASE_DIR w
       = (inr (mk_response 500
                 (ErrorBody (StrExn (NotADirectoryError (VIDEOS_DIR BASE_DIR))))), w)).
Proof.
  split.
  - intros Hno.
    by rewrite (ListFacts.list_sessions_run BASE_DIR w _ _
                  (ListFacts.scan_sessions_missing BASE_DIR w Hno)).
  - intros d Hfile.
    by rewrite (ListFacts.list_sessions_run BASE_DIR w _ _
                  (ListFacts.scan_sessions_file BASE_DIR w d Hfile)).
Qed.

(** A disk on which the storage root is a regular file. *)
Definition world_with_file_root : world :=
  mk_world (<[ ["srv"; "video_interviews"] := File Sample.two_bytes ]>
              {[ ["srv"] := Dir ]})
           [] (fun _ => Sample.noon) 0.

Lemma list_sessions_without_root_witness :
  list_sessions Sample.base_dir Sample.empty_world
  = (inr (mk_response 200 (SessionsBody [])), Sample.empty_world)
  ∧ list_sessions Sample.base_dir world_with_file_root
    = (inr (mk_response 500
              (ErrorBody (StrExn (NotADirectoryError (VIDEOS_DIR Sample.base_dir))))),
       world_with_file_root).
Proof.
  split.
  - apply (proj1 (list_sessions_without_root Sample.base_dir Sample.empty_world)).
    vm_compute. reflexivity.
  - apply (proj2 (list_sessions_without_root Sample.base_dir world_with_file_root)
             Sample.two_bytes).
    vm_compute. reflexivity.
Defined.

(** A disk with sessions on two days: [sess-A] on 2024-05-31 and [sess-B] on
    2024-06-01. *)
Definition two_day_world : world :=
  snd (save_video Sample.store Sample.three_bytes "sess-B" (PyInt 1) ""
         Sample.next_day_world).

(** X17: [list_sessions] on a root that is a directory answers 200, leaves
    the world unchanged, and its list is in descending order of date (every
    entry's date is at least the date of every later entry, as strings).  The
    list holds exactly one entry for each directory [s] of each directory [d]
    of the root: its [session_id] is [s], its [date] is [d], its [path] is
    [d/s] and its [video_count] is the number of entries of that folder whose
    name ends in [.webm]. *)
Theorem list_sessions_sorted_by_date (BASE_DIR : ppath) (w : world) :
  let V := VIDEOS_DIR BASE_DIR in
  Posix.path_is_dir w V = true →
  ∃ sessions,
    list_sessions BASE_DIR w = (inr (mk_response 200 (SessionsBody sessions)), w)
    ∧ StronglySorted (fun a b => String.le (se_date b) (se_date a)) sessions
    ∧ ∀ e,
        e ∈ sessions
        ↔ ∃ d s,
            d ∈ ListFacts.subdirs w V
            ∧ s ∈ ListFacts.subdirs w (PurePath.child V d)
            ∧ e = mk_entry s d
                    (length (List.filter (Str.ends_with ".webm")
                               (ListFacts.listing w
                                  (PurePath.child (PurePath.child V d) s))))
                    (PurePath.to_str (mk_ppath "" [d; s])).
Proof.
  intros V Hdir.
  exists (sorted_by_date_desc (ListFacts.scanned w V)). split; [| split].
  - by rewrite (ListFacts.list_sessions_run BASE_DIR w _ _
                  (ListFacts.scan_sessions_dir BASE_DIR w Hdir)).
  - apply ListFacts.sorted_by_date_desc_sorted.
  - intros e. rewrite ListFacts.sorted_by_date_desc_perm.
    apply ListFacts.elem_of_scanned.
Qed.

Lemma list_sessions_sorted_by_date_witness :
  Posix.path_is_dir two_day_world (VIDEOS_DIR Sample.base_dir) = true
  ∧ fst (list_sessions Sample.base_dir two_day_world)
    = inr (mk_response 200
             (SessionsBody
                [mk_entry "sess-B" "2024-06-01" 1 "2024-06-01/sess-B";
                 mk_entry "sess-A" "2024-05-31" 1 "2024-05-31/sess-A"]))
  ∧ ∃ sessions,
      list_sessions Sample.base_dir two_day_world
      = (inr (mk_response 200 (SessionsBody sessions)), two_day_world)
      ∧ StronglySorted (fun a b => String.le (se_date b) (se_date a)) sessions.
Proof.
  assert (Posix.path_is_dir two_day_world (VIDEOS_DIR Sample.base_dir) = true) as Hdir
    by (vm_compute; reflexivity).
  split; [exact Hdir |]. split; [vm_compute; reflexivity |].
  destruct (list_sessions_sorted_by_date Sample.base_dir two_day_world Hdir)
    as (sessions & Hrun & Hsorted & _).
  exists sessions. split; [exact Hrun | exact Hsorted].
Defined.

(** X18: the sort of [list_sessions] is stable and loses nothing: the list
    it answers with is a rearrangement of the entries in scan order (date
    folders in listing order, the session folders of each in listing order),
    and the entries of any one date appear in it in scan order. *)
Theorem list_sessions_keeps_scan_order (BASE_DIR : ppath) (w : world) :
  let V := VIDEOS_DIR BASE_DIR in
  Posix.path_is_dir w V = true →
  ∃ sessions,
    list_sessions BASE_DIR w = (inr (mk_response 200 (SessionsBody sessions)), w)
    ∧ sessions ≡ₚ ListFacts.scanned w V
    ∧ ∀ date,
        List.filter (fun e => String.eqb (se_date e) date) sessions
        = List.filter (fun e => String.eqb (se_date e) date) (ListFacts.scanned w V).
Proof.
  intros V Hdir.
  exists (sorted_by_date_desc (ListFacts.scanned w V)). split; [| split].
  - by rewrite (ListFacts.list_sessions_run BASE_DIR w _ _
                  (ListFacts.scan_sessions_dir BASE_DIR w Hdir)).
  - apply ListFacts.sorted_by_date_desc_perm.
  - intros date. apply ListFacts.sorted_by_date_desc_stable.
Qed.

Lemma list_sessions_keeps_scan_order_witness :
  ∃ sessions,
    list_sessions Sample.base_dir two_day_world
    = (inr (mk_response 200 (SessionsBody sessions)), two_day_world)
    ∧ sessions ≡ₚ ListFacts.scanned two_day_world (VIDEOS_DIR Sample.base_dir)
    ∧ ∀ date,
        List.filter (fun e => String.eqb (se_date e) date) sessions
        = List.filter (fun e => String.eqb (se_date e) date)
            (ListFacts.scanned two_day_world (VIDEOS_DIR Sample.base_dir)).
Proof.
  apply (list_sessions_keeps_scan_order Sample.base_dir two_day_world).
  vm_compute. reflexivity.
Defined.

Module ScanFacts.
Import ReadFacts.

Lemma read_only_scan_sessions BASE_DIR : read_only (scan_sessions BASE_DIR).
Proof.
  unfold scan_sessions.
  apply read_only_bind; [apply read_only_exists |]. intros found.
  apply read_only_if; [| apply read_only_ret].
  apply read_only_bind; [apply read_only_iterdir |]. intros date_folders.
  apply read_only_for_each. intros date_folder sessions.
  apply read_only_bind; [apply read_only_is_dir |]. intros d.
  apply read_only_if; [| apply read_only_ret].
  apply read_only_bind; [apply read_only_iterdir |]. intros session_folders.
  apply read_only_for_each. intros session_folder sessions'.
  apply read_only_bind; [apply read_only_is_dir |]. intros d'.
  apply read_only_if; [| apply read_only_ret].
  apply read_only_bind; [apply read_only_glob |]. intros videos.
  apply read_only_bind; [apply read_only_relative_to |]. intros rel.
  apply read_only_ret.
Qed.

Lemma list_sessions_world BASE_DIR w :
  ∃ resp, list_sessions BASE_DIR w = (inr resp, w).
Proof.
  destruct (scan_sessions BASE_DIR w) as [r w'] eqn:Hscan.
  pose proof (read_only_scan_sessions BASE_DIR w r w' Hscan) as ->.
  rewrite (ListFacts.list_sessions_run BASE_DIR w r w Hscan). eauto.
Qed.

End ScanFacts.

(** X19: [list_sessions] only reads: in every state of the world it returns
    a response, never an exception, and the world it leaves is exactly the
    world it found. *)
Theorem list_sessions_only_reads (BASE_DIR : ppath) (w : world) :
  ∃ resp, list_sessions BASE_DIR w = (inr resp, w).
Proof. apply ScanFacts.list_sessions_world. Qed.

(** X20: if [create_session_folder] raises, [save_video] returns the failure
    holding that exception and the world is the one [create_session_folder]
    left: no file has been written. *)
Theorem save_video_without_folder (self : LocalVideoStorage)
    (video_data : list Byte.byte) (session_id : string) (question_number : pyval)
    (question_text : string) (w w1 : world) (e : exn) :
  create_session_folder self session_id w = (inl e, w1) →
  save_video self video_data session_id question_number question_text w
  = (inr (SaveFailed (StrExn e)), w1).
Proof.
  intros Hmk. unfold save_video, try_except, save_video_try.
  unfold bind at 1. by rewrite Hmk.
Qed.

Lemma save_video_without_folder_witness :
  save_video (mk_storage (VIDEOS_DIR Sample.base_dir </> "file.bin")) Sample.two_bytes
    "sess-A" (PyInt 3) "" world_with_file_root
  = (inr (SaveFailed
            (StrExn (NotADirectoryError
                       (VIDEOS_DIR Sample.base_dir </> "file.bin" </> "2024-06-01"
                          </> "sess-A")))),
     tick world_with_file_root).
Proof.
  apply (save_video_without_folder
           (mk_storage (VIDEOS_DIR Sample.base_dir </> "file.bin"))).
  apply ListedFacts.run_eq. vm_compute. reflexivity.
Defined.

Lemma init_needs_the_parent_witness :
  LocalVideoStorage_init (VIDEOS_DIR Sample.base_dir) Sample.empty_world
  = (inl (FileNotFoundError (VIDEOS_DIR Sample.base_dir)), Sample.empty_world)
  ∧ LocalVideoStorage_init (VIDEOS_DIR Sample.base_dir) world_with_file_root
    = (inl (FileExistsError (VIDEOS_DIR Sample.base_dir)), world_with_file_root).
Proof.
  split.
  - apply (proj1 (init_needs_the_parent (VIDEOS_DIR Sample.base_dir) Sample.empty_world)).
    vm_compute. reflexivity.
  - apply (proj2 (init_needs_the_parent (VIDEOS_DIR Sample.base_dir) world_with_file_root)
             Sample.two_bytes).
    vm_compute. reflexivity.
Defined.

(** ** Loading the module, and the record a save returns *)

Module LoadFacts.
Import Posix PosixFacts OpFacts.

Lemma load_module_run BASE_DIR w self w' :
  load_module BASE_DIR w = (inr self, w') →
  self = storage BASE_DIR ∧ grows w w' ∧ path_is_dir w' (VIDEOS_DIR BASE_DIR) = true.
Proof.
  unfold load_module. intros Hrun.
  apply bind_inv in Hrun as [(e & _ & ?) | ([] & w1 & Hmk & Hinit)]; [done |].
  apply mkdir_exist_ok_grows in Hmk.
  destruct (FolderFacts.init_run _ _ _ _ Hinit) as [Hgrow Hok].
  destruct (Hok self eq_refl) as [Hbase Hdir].
  split; [| split; [by apply (grows_trans _ w1) | done]].
  destruct self as [p]. cbn in Hbase. by subst p.
Qed.

End LoadFacts.

(** X21: once the module has loaded, the storage root is in place: the store
    it builds is rooted at [VIDEOS_DIR], loading has only added directories,
    and [list_sessions] then answers with status 200. *)
Theorem loaded_module_can_list (BASE_DIR : ppath) (w w' : world)
    (self : LocalVideoStorage) :
  load_module BASE_DIR w = (inr self, w') →
  self = storage BASE_DIR
  ∧ (∀ k, tree w' !! k = tree w !! k ∨ (tree w !! k = None ∧ tree w' !! k = Some Dir))
  ∧ ∃ sessions,
      list_sessions BASE_DIR w' = (inr (mk_response 200 (SessionsBody sessions)), w').
Proof.
  intros Hload.
  destruct (LoadFacts.load_module_run BASE_DIR w self w' Hload)
    as (-> & (_ & _ & _ & Htree) & Hdir).
  split; [done |]. split; [done |].
  eexists.
  by rewrite (ListFacts.list_sessions_run BASE_DIR w' _ _
                (ListFacts.scan_sessions_dir BASE_DIR w' Hdir)).
Qed.

(** A disk that holds only the directory [/srv]. *)
Definition world_with_base_dir : world :=
  mk_world {[ ["srv"] := Dir ]} [] (fun _ => Sample.noon) 0.

Lemma loaded_module_can_list_witness :
  let run := load_module Sample.base_dir world_with_base_dir in
  fst run = inr Sample.store
  ∧ ∃ sessions,
      list_sessions Sample.base_dir (snd run)
      = (inr (mk_response 200 (SessionsBody sessions)), snd run).
Proof.
  intros run.
  assert (fst run = inr Sample.store) as Hfst by (vm_compute; reflexivity).
  split; [exact Hfst |].
  exact (proj2 (proj2 (loaded_module_can_list Sample.base_dir world_with_base_dir
                         (snd run) Sample.store (ListedFacts.run_eq run _ Hfst)))).
Defined.


